(** * StaticCodeAnalyzer: a shallow embedding of [static_code_analyzer.py]

    The analyzer has two passes over one Python file: a line scanner
    (rules S001-S009) and a syntax-tree scanner (rules S010-S012), whose
    findings are merged, sorted and printed by [main].

    Conventions of the embedding.
    - A Python [str] is a [string]; a character is a code point below 256.
      [str.isspace], the regular-expression class [\s] and the classes
      [[a-z]], [[A-Z]], [[0-9]] are read on code points.
    - [tokenize.generate_tokens], [ast.parse] and the file system are
      collaborators of the program and not part of it: they are variables
      of the sections below.  A token generator is the trace of what it
      yields, ended by exhaustion or by [tokenize.TokenError].
    - An exception that a function lets escape is a [Raise] result. *)

From Stdlib Require Import String Ascii List Bool Arith ZArith Lia.
From Stdlib Require Import Sorting.Sorted Sorting.Permutation RelationClasses.
From Stdlib Require Import Structures.OrdersEx Numbers.DecimalString.
Import ListNotations.

Local Open Scope string_scope.
Local Open Scope list_scope.
Local Open Scope nat_scope.

(* ================================================================= *)
(** * Part I: definitions *)
(* ================================================================= *)

(** ** Characters and the string methods the analyzer calls *)

Module Str.

Definition code (c : ascii) : nat := nat_of_ascii c.

Definition in_range (lo hi : nat) (c : ascii) : bool :=
  (lo <=? code c) && (code c <=? hi).

(** [[a-z]], [[A-Z]], [[0-9]] *)
Definition is_lower (c : ascii) : bool := in_range 97 122 c.
Definition is_upper (c : ascii) : bool := in_range 65 90 c.
Definition is_digit (c : ascii) : bool := in_range 48 57 c.
Definition is_underscore (c : ascii) : bool := code c =? 95.

(** [str.isspace] on code points below 256: TAB..CR, FS..US, space,
    NEL and the no-break space.  It is also the class [\s]. *)
Definition is_space (c : ascii) : bool :=
  in_range 9 13 c || in_range 28 32 c || (code c =? 133) || (code c =? 160).

Definition is_newline (c : ascii) : bool := code c =? 10.
Definition is_blank_char (c : ascii) : bool := code c =? 32.

(** [s.lstrip(chars)] *)
Fixpoint lstrip (p : ascii -> bool) (s : string) : string :=
  match s with
  | EmptyString => EmptyString
  | String c s' => if p c then lstrip p s' else s
  end.

(** [s.rstrip(chars)] *)
Fixpoint rstrip (p : ascii -> bool) (s : string) : string :=
  match s with
  | EmptyString => EmptyString
  | String c s' =>
      match rstrip p s' with
      | EmptyString => if p c then EmptyString else String c EmptyString
      | r => String c r
      end
  end.

(** [s.strip()] *)
Definition strip (s : string) : string := lstrip is_space (rstrip is_space s).

(** The longest prefix of characters in a class, and what follows it. *)
Fixpoint span (p : ascii -> bool) (s : string) : string * string :=
  match s with
  | EmptyString => (EmptyString, EmptyString)
  | String c s' =>
      if p c then let (a, b) := span p s' in (String c a, b)
      else (EmptyString, s)
  end.

(** [s[:n]] and [s[n:]] for [n >= 0] *)
Fixpoint take (n : nat) (s : string) : string :=
  match n, s with
  | S n', String c s' => String c (take n' s')
  | _, _ => EmptyString
  end.

Fixpoint drop (n : nat) (s : string) : string :=
  match n, s with
  | S n', String _ s' => drop n' s'
  | _, _ => s
  end.

(** [s.startswith(p)] and [s.endswith(p)] *)
Definition startswith (s p : string) : bool := String.prefix p s.

Definition endswith (s p : string) : bool :=
  (String.length p <=? String.length s) &&
  String.eqb (drop (String.length s - String.length p) s) p.

Definition is_empty (s : string) : bool :=
  match s with EmptyString => true | _ => false end.

(** ASCII lower-casing, as [re.IGNORECASE] compares the letters of a
    literal pattern. *)
Definition lower (c : ascii) : ascii :=
  if is_upper c then ascii_of_nat (code c + 32) else c.

Fixpoint startswith_ignorecase (s p : string) : bool :=
  match p, s with
  | EmptyString, _ => true
  | String a p', String b s' =>
      Ascii.eqb (lower b) a && startswith_ignorecase s' p'
  | String _ _, EmptyString => false
  end.

(** [re.compile(p, re.IGNORECASE).search(s)] for a lower-case literal [p] *)
Fixpoint search_ignorecase (p s : string) : bool :=
  startswith_ignorecase s p ||
  match s with
  | EmptyString => false
  | String _ s' => search_ignorecase p s'
  end.

(** [str(n)] for a natural number *)
Definition of_nat (n : nat) : string := NilZero.string_of_uint (Nat.to_uint n).

(** Comparison of strings, code point by code point. *)
Definition compare : string -> string -> comparison := String_as_OT.compare.
Definition lt (a b : string) : Prop := compare a b = Lt.
Definition leb (a b : string) : bool :=
  match compare a b with Gt => false | _ => true end.

End Str.

(** ** Regular expressions, as far as [re.fullmatch] is used *)

Module Re.

Inductive re : Type :=
| Class (p : ascii -> bool)     (* a character class, [[...]] *)
| Seq (r1 r2 : re)              (* concatenation *)
| Star (r : re)                 (* [r*] *)
| Alt (r1 r2 : re)
| Eps
| Null.

(** The language of a pattern. *)
Inductive matches : re -> list ascii -> Prop :=
| MClass p c : p c = true -> matches (Class p) [c]
| MSeq r1 r2 u v : matches r1 u -> matches r2 v -> matches (Seq r1 r2) (u ++ v)
| MStarNil r : matches (Star r) []
| MStarCons r u v : matches r u -> matches (Star r) v -> matches (Star r) (u ++ v)
| MAltL r1 r2 u : matches r1 u -> matches (Alt r1 r2) u
| MAltR r1 r2 u : matches r2 u -> matches (Alt r1 r2) u
| MEps : matches Eps [].

Fixpoint nullable (r : re) : bool :=
  match r with
  | Class _ => false
  | Seq r1 r2 => nullable r1 && nullable r2
  | Star _ => true
  | Alt r1 r2 => nullable r1 || nullable r2
  | Eps => true
  | Null => false
  end.

(** What is left of a pattern after it has read [c]. *)
Fixpoint deriv (c : ascii) (r : re) : re :=
  match r with
  | Class p => if p c then Eps else Null
  | Seq r1 r2 =>
      if nullable r1 then Alt (Seq (deriv c r1) r2) (deriv c r2)
      else Seq (deriv c r1) r2
  | Star r1 => Seq (deriv c r1) (Star r1)
  | Alt r1 r2 => Alt (deriv c r1) (deriv c r2)
  | Eps => Null
  | Null => Null
  end.

Fixpoint accepts (r : re) (w : list ascii) : bool :=
  match w with
  | [] => nullable r
  | c :: w' => accepts (deriv c r) w'
  end.

(** [bool(re.fullmatch(r, s))] *)
Definition fullmatch (r : re) (s : string) : bool :=
  accepts r (list_ascii_of_string s).

End Re.

(** ** Naming classifiers *)

(** [[a-zA-Z0-9]] and [[a-z0-9_]] *)
Definition is_alnum (c : ascii) : bool :=
  Str.is_lower c || Str.is_upper c || Str.is_digit c.

Definition is_snake_char (c : ascii) : bool :=
  Str.is_lower c || Str.is_digit c || Str.is_underscore c.

(** [r"[A-Z][a-zA-Z0-9]*"] *)
Definition RE_CAMEL : Re.re :=
  Re.Seq (Re.Class Str.is_upper) (Re.Star (Re.Class is_alnum)).

(** [r"_*[a-z][a-z0-9_]*_*"] *)
Definition RE_SNAKE : Re.re :=
  Re.Seq (Re.Star (Re.Class Str.is_underscore))
    (Re.Seq (Re.Class Str.is_lower)
       (Re.Seq (Re.Star (Re.Class is_snake_char))
          (Re.Star (Re.Class Str.is_underscore)))).

Definition is_camel_case (name : string) : bool := Re.fullmatch RE_CAMEL name.

Definition is_snake_case (name : string) : bool := Re.fullmatch RE_SNAKE name.

(** ** Tokens: what [tokenize.generate_tokens] hands to the analyzer *)

Inductive token_type : Type :=
  ENDMARKER | NAME | NUMBER | STRING | NEWLINE | INDENT | DEDENT
| OP | COMMENT | NL | ERRORTOKEN.

(** [start] and [end] are (row, column) pairs. *)
Record TokenInfo : Type := mkToken {
  type : token_type;
  start : nat * nat;
  end_ : nat * nat
}.

(** A generator of tokens, unfolded: each [Yield] is one [next()], the
    generator ends by [StopIteration] or by raising [tokenize.TokenError]. *)
Inductive token_stream : Type :=
| Yield (token : TokenInfo) (rest : token_stream)
| StopIteration
| RaiseTokenError.

Definition is_COMMENT (t : token_type) : bool :=
  match t with COMMENT => true | _ => false end.

(** The [for token in tokens] loop of [split_code_and_comment] inside its
    [try]: the column of the first COMMENT token, reached before the
    generator stops or raises; [None] when line 58 is reached instead. *)
Fixpoint first_comment_col (tokens : token_stream) : option nat :=
  match tokens with
  | Yield token rest =>
      if is_COMMENT (type token) then Some (snd (start token))
      else first_comment_col rest
  | StopIteration => None
  | RaiseTokenError => None
  end.

(** ** The rule catalog and report items *)

Definition MAX_LINE_LENGTH : nat := 79.

Record ReportItem : Type := mkReportItem {
  file_path : string;
  line_number : nat;
  code : string;
  message : string
}.

Definition MESSAGES : list (string * string) :=
  [ ("S001", "Too long line");
    ("S002", "Indentation is not a multiple of four");
    ("S003", "Unnecessary semicolon");
    ("S004", "At least two spaces required before inline comments");
    ("S005", "TODO found");
    ("S006", "More than two blank lines used before this line");
    ("S007", "Too many spaces after '{kw}'");
    ("S008", "Class name '{name}' should use CamelCase");
    ("S009", "Function name '{name}' should use snake_case");
    ("S010", "Argument name '{name}' should use snake_case");
    ("S011", "Variable '{name}' in function should use snake_case");
    ("S012", "Default argument value is mutable") ].

(** A dict with string keys, in insertion order. *)
Definition dict (V : Type) : Type := list (string * V).

Fixpoint dict_get {V : Type} (d : dict V) (k : string) : option V :=
  match d with
  | [] => None
  | (k', v) :: d' => if String.eqb k k' then Some v else dict_get d' k
  end.

(** [d.keys()] *)
Definition keys {V : Type} (d : dict V) : list string :=
  map (fun item : string * V => fst item) d.

(** The entries of [d] under the key [k]. *)
Definition with_key {V : Type} (k : string) (d : dict V) : dict V :=
  filter (fun item => String.eqb (fst item) k) d.

(** [d.setdefault(k, v)], for its effect on [d] *)
Definition setdefault {V : Type} (d : dict V) (k : string) (v : V) : dict V :=
  match dict_get d k with
  | Some _ => d
  | None => d ++ [(k, v)]
  end.

(** The keyword arguments of [str.format]. *)
Definition kwargs : Type := dict string.

(** [MESSAGES[code]]; every code the analyzer produces is a key of the
    catalog (lemma [find_issues_codes_in_catalog]), so the [KeyError] of a
    missing key is out of reach and rendered as the empty template. *)
Definition MESSAGES_at (code : string) : string :=
  match dict_get MESSAGES code with
  | Some template => template
  | None => EmptyString
  end.

(** [str.format] with keyword arguments [fmt], for templates whose
    replacement fields are plain [{key}]: [field] is the field name read so
    far, when inside one.
    The catalog's templates are only formatted with their own field. *)
Fixpoint format_from (template : string) (field : option string) (fmt : kwargs)
  : string :=
  match template with
  | EmptyString => EmptyString
  | String c rest =>
      match field with
      | None =>
          if Ascii.eqb c "{"%char then format_from rest (Some EmptyString) fmt
          else String c (format_from rest None fmt)
      | Some k =>
          if Ascii.eqb c "}"%char then
            (match dict_get fmt k with Some v => v | None => EmptyString end
             ++ format_from rest None fmt)%string
          else format_from rest (Some (k ++ String c EmptyString)%string) fmt
      end
  end.

Definition format (template : string) (fmt : kwargs) : string :=
  format_from template None fmt.

(** ** Sorting: Python's [sorted], a stable sort *)

Section Sorting.
Context {A : Type} (leb : A -> A -> bool).

Fixpoint insert (x : A) (l : list A) : list A :=
  match l with
  | [] => [x]
  | y :: l' => if leb x y then x :: l else y :: insert x l'
  end.

Fixpoint sorted (l : list A) : list A :=
  match l with
  | [] => []
  | x :: l' => insert x (sorted l')
  end.
End Sorting.

(** [a] may come before [b] in a list sorted by [leb]. *)
Definition ordered_by {A : Type} (leb : A -> A -> bool) (a b : A) : Prop :=
  leb a b = true.

(** A three-way comparison that is a total order. *)
Class TotalOrder {A : Type} (cmp : A -> A -> comparison) : Prop := {
  cmp_eq : forall a b, cmp a b = Eq -> a = b;
  cmp_antisym : forall a b, cmp b a = CompOpp (cmp a b);
  cmp_trans : forall a b c, cmp a b = Lt -> cmp b c = Lt -> cmp a c = Lt
}.

Definition cmp_leb {A : Type} (cmp : A -> A -> comparison) (a b : A) : bool :=
  match cmp a b with Gt => false | _ => true end.

(** The order of a [dataclass(order=True)]: the fields as a tuple. *)
Definition compare_then (c : comparison) (k : comparison) : comparison :=
  match c with Eq => k | _ => c end.

Definition ReportItem_compare (a b : ReportItem) : comparison :=
  compare_then (Str.compare (file_path a) (file_path b))
    (compare_then (Nat.compare (line_number a) (line_number b))
       (compare_then (Str.compare (code a) (code b))
          (Str.compare (message a) (message b)))).

Definition ReportItem_lt (a b : ReportItem) : Prop := ReportItem_compare a b = Lt.

Definition ReportItem_leb (a b : ReportItem) : bool :=
  match ReportItem_compare a b with Gt => false | _ => true end.

(** ** The line rule set *)

(** [RE_CLASS] and [RE_DEF], matched at the start of the line: group 1 is
    a run of [\s], then the keyword, group 2 is a non-empty run of [\s],
    group 3 is one of [[A-Za-z_]] and a run of [[A-Za-z0-9_]].  Every group
    is greedy and what follows a group cannot start with a character of the
    group's class, so the match, when there is one, takes the longest run
    for each group.  The result is (group 2, group 3). *)
Definition is_ident_start (c : ascii) : bool :=
  Str.is_lower c || Str.is_upper c || Str.is_underscore c.

Definition is_ident_char (c : ascii) : bool :=
  is_ident_start c || Str.is_digit c.

Definition match_header (kw : string) (line : string) : option (string * string) :=
  let (_, after_indent) := Str.span Str.is_space line in
  if Str.startswith after_indent kw then
    let (spaces, after_spaces) :=
      Str.span Str.is_space (Str.drop (String.length kw) after_indent) in
    match spaces, after_spaces with
    | String _ _, String c _ =>
        if is_ident_start c
        then Some (spaces, fst (Str.span is_ident_char after_spaces))
        else None
    | _, _ => None
    end
  else None.

Definition RE_CLASS_match : string -> option (string * string) := match_header "class".
Definition RE_DEF_match : string -> option (string * string) := match_header "def".

(** [RE_TODO.search] *)
Definition RE_TODO_search (s : string) : bool := Str.search_ignorecase "todo" s.

Definition newline : string := String (ascii_of_nat 10) EmptyString.

Definition rstrip_newline (s : string) : string := Str.rstrip Str.is_newline s.

Definition check_s001 (raw_line : string) : option string :=
  if MAX_LINE_LENGTH <? String.length (rstrip_newline raw_line)
  then Some "S001" else None.

Definition check_s002 (raw_line : string) : option string :=
  if Str.is_empty (Str.strip raw_line) then None
  else
    let leading_spaces :=
      String.length raw_line - String.length (Str.lstrip Str.is_blank_char raw_line) in
    if negb (leading_spaces mod 4 =? 0) then Some "S002" else None.

Definition check_s003 (code_part : string) : option string :=
  if Str.endswith (Str.rstrip Str.is_space code_part) ";" then Some "S003" else None.

Definition check_s004 (code_part : string) (comment_col : Z) : option string :=
  if (comment_col =? -1)%Z then None
  else if Str.is_empty (Str.strip code_part) then None
  else if negb (Str.endswith code_part "  ") then Some "S004"
  else None.

Definition check_s005 (comment_part : string) : option string :=
  if negb (Str.is_empty comment_part) && RE_TODO_search comment_part
  then Some "S005" else None.

Definition check_s006 (blank_lines_before : nat) (raw_line : string) : option string :=
  if negb (Str.is_empty (Str.strip raw_line)) && (2 <? blank_lines_before)
  then Some "S006" else None.

Definition check_s007_s008_s009 (raw_line : string) : list (string * kwargs) :=
  match RE_CLASS_match raw_line with
  | Some (spaces, name) =>
      (if 1 <? String.length spaces then [("S007", [("kw", "class")])] else [])
      ++ (if negb (is_camel_case name) then [("S008", [("name", name)])] else [])
  | None =>
      match RE_DEF_match raw_line with
      | Some (spaces, name) =>
          (if 1 <? String.length spaces then [("S007", [("kw", "def")])] else [])
          ++ (if negb (is_snake_case name) then [("S009", [("name", name)])] else [])
      | None => []
      end
  end.

(** [for code in (...): if code is not None: found.append((code, {}))] *)
Definition collect (checks : list (option string)) : list (string * kwargs) :=
  flat_map (fun c => match c with Some code => [(code, [])] | None => [] end) checks.

(** [for code, kwargs in found: uniq.setdefault(code, kwargs)] *)
Definition unique_by_code (found : list (string * kwargs)) : dict kwargs :=
  fold_left (fun uniq item => setdefault uniq (fst item) (snd item)) found [].

(** [sorted(uniq.items(), key=lambda x: x[0])] *)
Definition sorted_by_code (items : list (string * kwargs)) : list (string * kwargs) :=
  sorted (fun x y => Str.leb (fst x) (fst y)) items.

Section LineRules.

(** [tokenize.generate_tokens(io.StringIO(line).readline)] *)
Variable generate_tokens : string -> token_stream.

(** Returns (code_part, comment_part, comment_col); comment_col is -1
    when no COMMENT token is met. *)
Definition split_code_and_comment (line : string) : string * string * Z :=
  match first_comment_col (generate_tokens line) with
  | Some col =>
      (rstrip_newline (Str.take col line),
       rstrip_newline (Str.drop col line),
       Z.of_nat col)
  | None => (rstrip_newline line, EmptyString, (-1)%Z)
  end.

Definition find_issues_for_line (raw_line : string) (blank_lines_before : nat)
  : list (string * kwargs) :=
  let '(code_part, comment_part, comment_col) := split_code_and_comment raw_line in
  let found :=
    collect [ check_s001 raw_line;
              check_s002 raw_line;
              check_s006 blank_lines_before raw_line;
              check_s003 code_part;
              check_s004 code_part comment_col;
              check_s005 comment_part ]
    ++ check_s007_s008_s009 raw_line in
  sorted_by_code (unique_by_code found).

(** The items one physical line adds to the report in [analyze_file]. *)
Definition line_items (file_path : string) (line_number : nat)
    (issues : list (string * kwargs)) : list ReportItem :=
  map (fun issue =>
         let template := MESSAGES_at (fst issue) in
         let message :=
           match snd issue with
           | [] => template
           | fmt => format template fmt
           end in
         mkReportItem file_path line_number (fst issue) message)
      issues.

(** The state of the loop of [analyze_file]: the number of the next line
    and the count of blank lines just before it. *)
Definition next_blank_lines (blank_lines_before : nat) (raw_line : string) : nat :=
  if Str.is_empty (Str.strip raw_line) then S blank_lines_before else 0.

(** [for line_number, raw_line in enumerate(f, start=1): ...] *)
Fixpoint scan_lines (file_path : string) (lines : list string)
    (line_number blank_lines_before : nat) : list ReportItem :=
  match lines with
  | [] => []
  | raw_line :: rest =>
      line_items file_path line_number
        (find_issues_for_line raw_line blank_lines_before)
      ++ scan_lines file_path rest (S line_number)
           (next_blank_lines blank_lines_before raw_line)
  end.

End LineRules.

(** ** Syntax trees: the nodes of Python's [ast] module

    [ast] is dynamically typed: every node is an [ast.AST] and a field
    holds a node, a list of nodes, an optional node or plain data.  The
    classes the analyzer tells apart, and those the naming rule is asked
    about, have a constructor with their fields in the order of [_fields];
    [Node] stands for a node of any other class ([If], [Call], [Load],
    [Add], ...) with its child nodes in field order.  The parser fills the
    [args] field of a definition with an [arguments] node and its parameter
    lists with [arg] nodes. *)

Scheme All for list.
Scheme All for option.

Inductive AST : Type :=
| Module (body : list AST)
| FunctionDef (lineno : nat) (name : string) (args : AST) (body : list AST)
    (decorator_list : list AST) (returns : option AST) (type_params : list AST)
| AsyncFunctionDef (lineno : nat) (name : string) (args : AST) (body : list AST)
    (decorator_list : list AST) (returns : option AST) (type_params : list AST)
| ClassDef (lineno : nat) (name : string) (bases keywords body : list AST)
    (decorator_list : list AST) (type_params : list AST)
| Assign (lineno : nat) (targets : list AST) (value : AST)
| AugAssign (lineno : nat) (target op value : AST)
| AnnAssign (lineno : nat) (target annotation : AST) (value : option AST)
| Lambda (args : AST) (body : AST)
| Dict (keys : list (option AST)) (values : list AST)
| Set_ (elts : list AST)
| Attribute (value : AST) (attr : string) (ctx : AST)
| Subscript (value slice ctx : AST)
| Starred (value ctx : AST)
| Name (id : string) (ctx : AST)
| List_ (elts : list AST) (ctx : AST)
| Tuple (elts : list AST) (ctx : AST)
| arguments (posonlyargs args : list AST) (vararg : option AST)
    (kwonlyargs : list AST) (kw_defaults : list (option AST))
    (kwarg : option AST) (defaults : list AST)
| arg (arg_name : string) (annotation : option AST)
| Node (class_name : string) (children : list AST).

(** A field that holds an optional node, and a list with [None] entries. *)
Definition opt_node (o : option AST) : list AST :=
  match o with Some n => [n] | None => [] end.

Definition present (l : list (option AST)) : list AST := flat_map opt_node l.

(** [ast.iter_child_nodes]: the nodes held by the fields, in field order. *)
Definition iter_child_nodes (node : AST) : list AST :=
  match node with
  | Module body => body
  | FunctionDef _ _ args body decorator_list returns type_params
  | AsyncFunctionDef _ _ args body decorator_list returns type_params =>
      args :: body ++ decorator_list ++ opt_node returns ++ type_params
  | ClassDef _ _ bases keywords body decorator_list type_params =>
      bases ++ keywords ++ body ++ decorator_list ++ type_params
  | Assign _ targets value => targets ++ [value]
  | AugAssign _ target op value => [target; op; value]
  | AnnAssign _ target annotation value => target :: annotation :: opt_node value
  | Lambda args body => [args; body]
  | Dict keys values => present keys ++ values
  | Set_ elts => elts
  | Attribute value _ ctx => [value; ctx]
  | Subscript value slice ctx => [value; slice; ctx]
  | Starred value ctx => [value; ctx]
  | Name _ ctx => [ctx]
  | List_ elts ctx => elts ++ [ctx]
  | Tuple elts ctx => elts ++ [ctx]
  | arguments posonlyargs args vararg kwonlyargs kw_defaults kwarg defaults =>
      posonlyargs ++ args ++ opt_node vararg ++ kwonlyargs
      ++ present kw_defaults ++ opt_node kwarg ++ defaults
  | arg _ annotation => opt_node annotation
  | Node _ children => children
  end.

(** The number of nodes of a tree: the bound of the two worklist loops. *)
Fixpoint size (node : AST) : nat :=
  let sizes := fix sizes (l : list AST) : nat :=
    match l with [] => 0 | n :: l' => size n + sizes l' end in
  let osize := fun o : option AST =>
    match o with Some n => size n | None => 0 end in
  let osizes := fix osizes (l : list (option AST)) : nat :=
    match l with
    | [] => 0
    | Some n :: l' => size n + osizes l'
    | None :: l' => osizes l'
    end in
  S match node with
    | Module body => sizes body
    | FunctionDef _ _ args body decorator_list returns type_params
    | AsyncFunctionDef _ _ args body decorator_list returns type_params =>
        size args + sizes body + sizes decorator_list + osize returns
        + sizes type_params
    | ClassDef _ _ bases keywords body decorator_list type_params =>
        sizes bases + sizes keywords + sizes body + sizes decorator_list
        + sizes type_params
    | Assign _ targets value => sizes targets + size value
    | AugAssign _ target op value => size target + size op + size value
    | AnnAssign _ target annotation value =>
        size target + size annotation + osize value
    | Lambda args body => size args + size body
    | Dict keys values => osizes keys + sizes values
    | Set_ elts => sizes elts
    | Attribute value _ ctx => size value + size ctx
    | Subscript value slice ctx => size value + size slice + size ctx
    | Starred value ctx => size value + size ctx
    | Name _ ctx => size ctx
    | List_ elts ctx => sizes elts + size ctx
    | Tuple elts ctx => sizes elts + size ctx
    | arguments posonlyargs args vararg kwonlyargs kw_defaults kwarg defaults =>
        sizes posonlyargs + sizes args + osize vararg + sizes kwonlyargs
        + osizes kw_defaults + osize kwarg + sizes defaults
    | arg _ annotation => osize annotation
    | Node _ children => sizes children
    end.

Fixpoint sizes (l : list AST) : nat :=
  match l with [] => 0 | n :: l' => size n + sizes l' end.

(** [isinstance(node, (ast.FunctionDef, ast.AsyncFunctionDef))] *)
Definition is_function (node : AST) : bool :=
  match node with
  | FunctionDef _ _ _ _ _ _ _ | AsyncFunctionDef _ _ _ _ _ _ _ => true
  | _ => false
  end.

(** [isinstance(child, skip_types)] *)
Definition is_skip_type (node : AST) : bool :=
  match node with
  | FunctionDef _ _ _ _ _ _ _ | AsyncFunctionDef _ _ _ _ _ _ _
  | ClassDef _ _ _ _ _ _ _ | Lambda _ _ => true
  | _ => false
  end.

(** [isinstance(default, (ast.List, ast.Dict, ast.Set))] *)
Definition is_mutable_literal (node : AST) : bool :=
  match node with
  | List_ _ _ | Dict _ _ | Set_ _ => true
  | _ => false
  end.

(** ** The structural rule set *)

Fixpoint extract_assigned_names (target : AST) : list string :=
  match target with
  | Name id _ => [id]
  | Tuple elts _ | List_ elts _ => flat_map extract_assigned_names elts
  | _ => []
  end.

(** The inner [for] of [walk_without_nested_scopes]: the children that are
    not of a skipped class are pushed one after the other.  The head of the
    list is the top of the stack. *)
Definition push_children (stack : list AST) (children : list AST) : list AST :=
  fold_left (fun st child => if is_skip_type child then st else child :: st)
    children stack.

(** [while stack: node = stack.pop(); yield node; ...], at most [fuel] turns. *)
Fixpoint walk_stack (fuel : nat) (stack : list AST) : list AST :=
  match fuel, stack with
  | S fuel', node :: stack' =>
      node :: walk_stack fuel' (push_children stack' (iter_child_nodes node))
  | _, _ => []
  end.

(** The stack starts as [list(reversed(nodes))], its top is [nodes[0]]; the
    loop ends within [sizes nodes] turns (lemma [walk_stack_fuel]). *)
Definition walk_without_nested_scopes (nodes : list AST) : list AST :=
  walk_stack (sizes nodes) nodes.

(** [ast.walk]: [todo.popleft()], [todo.extend(iter_child_nodes(node))]. *)
Fixpoint walk_queue (fuel : nat) (todo : list AST) : list AST :=
  match fuel, todo with
  | S fuel', node :: todo' =>
      node :: walk_queue fuel' (todo' ++ iter_child_nodes node)
  | _, _ => []
  end.

Definition ast_walk (tree : AST) : list AST := walk_queue (size tree) [tree].

(** [arg.arg for arg in ...], and the optional [vararg] and [kwarg]. *)
Definition arg_of (a : AST) : list string :=
  match a with arg arg_name _ => [arg_name] | _ => [] end.

Definition arg_names_of (args : AST) : list string :=
  match args with
  | arguments posonlyargs args vararg kwonlyargs _ kwarg _ =>
      flat_map arg_of posonlyargs ++ flat_map arg_of args
      ++ flat_map arg_of kwonlyargs
      ++ flat_map arg_of (opt_node vararg) ++ flat_map arg_of (opt_node kwarg)
  | _ => []
  end.

(** [list(node.args.defaults) + list(node.args.kw_defaults)]; an entry of
    [kw_defaults] is [None] for a keyword-only parameter with no default. *)
Definition defaults_of (args : AST) : list (option AST) :=
  match args with
  | arguments _ _ _ _ kw_defaults _ defaults => map Some defaults ++ kw_defaults
  | _ => []
  end.

Definition is_mutable_default (default : option AST) : bool :=
  match default with Some d => is_mutable_literal d | None => false end.

(** The targets of an assignment statement with its line, nothing for any
    other node. *)
Definition assignment_targets (inner : AST) : option (nat * list AST) :=
  match inner with
  | Assign lineno targets _ => Some (lineno, targets)
  | AnnAssign lineno target _ _ => Some (lineno, [target])
  | AugAssign lineno target _ _ => Some (lineno, [target])
  | _ => None
  end.

Definition not_snake (names : list string) : list string :=
  filter (fun n => negb (is_snake_case n)) names.

Definition S010_items (file_path : string) (lineno : nat) (args : AST)
  : list ReportItem :=
  map (fun arg_name =>
         mkReportItem file_path lineno "S010"
           (format (MESSAGES_at "S010") [("name", arg_name)]))
      (not_snake (arg_names_of args)).

Definition S012_items (file_path : string) (lineno : nat) (args : AST)
  : list ReportItem :=
  if existsb is_mutable_default (defaults_of args)
  then [mkReportItem file_path lineno "S012" (MESSAGES_at "S012")]
  else [].

(** The body of [for inner in walk_without_nested_scopes(node.body)]. *)
Definition S011_items_of (file_path : string) (inner : AST) : list ReportItem :=
  match assignment_targets inner with
  | Some (lineno, targets) =>
      map (fun name =>
             mkReportItem file_path lineno "S011"
               (format (MESSAGES_at "S011") [("name", name)]))
          (not_snake (flat_map extract_assigned_names targets))
  | None => []
  end.

Definition S011_items (file_path : string) (body : list AST) : list ReportItem :=
  flat_map (S011_items_of file_path) (walk_without_nested_scopes body).

(** The body of [for node in ast.walk(tree)]: what one node adds to [items]. *)
Definition analyze_node (file_path : string) (node : AST) : list ReportItem :=
  match node with
  | FunctionDef lineno _ args body _ _ _
  | AsyncFunctionDef lineno _ args body _ _ _ =>
      S010_items file_path lineno args
      ++ S012_items file_path lineno args
      ++ S011_items file_path body
  | _ => []
  end.

Definition analyze_tree (file_path : string) (tree : AST) : list ReportItem :=
  flat_map (analyze_node file_path) (ast_walk tree).

(** ** Files, exceptions and the two scanners of one file *)

Inductive exception : Type :=
  SyntaxError | OSError | UnicodeDecodeError | ValueError.

Inductive result (A : Type) : Type :=
| Return (a : A)
| Raise (e : exception).

Arguments Return {A} a.
Arguments Raise {A} e.

Definition bind {A B : Type} (r : result A) (k : A -> result B) : result B :=
  match r with
  | Return a => k a
  | Raise e => Raise e
  end.

Notation "x <- r ;; k" := (bind r (fun x => k))
  (at level 61, r at next level, right associativity).

(** What opening and reading a path in text mode, encoding utf-8, does:
    [open] fails, or decoding fails after some lines were handed out, or
    the file is text. *)
Inductive file : Type :=
| Unreadable
| Undecodable (decoded : list string)
| Text (source : string).

(** The lines a text file iterates over: each keeps its newline. *)
Fixpoint lines_of (source : string) : list string :=
  match source with
  | EmptyString => []
  | String c rest =>
      if Str.is_newline c then String c EmptyString :: lines_of rest
      else
        match lines_of rest with
        | [] => [String c EmptyString]
        | line :: lines => String c line :: lines
        end
  end.

(** [f.read()] *)
Definition read (f : file) : result string :=
  match f with
  | Unreadable => Raise OSError
  | Undecodable _ => Raise UnicodeDecodeError
  | Text source => Return source
  end.

Section Analyzer.

Variable generate_tokens : string -> token_stream.

(** [ast.parse(source)]: the tree, or the exception it raises. *)
Variable ast_parse : string -> result AST.

(** The file system: what is found at a path. *)
Variable open_ : string -> file.

(** [iter_python_files]: the paths of the .py files under a path, a
    traversal of the file system by [os.walk]. *)
Variable iter_python_files : string -> list string.

(** [except (SyntaxError, OSError, UnicodeDecodeError): return []] *)
Definition analyze_ast_issues (file_path : string) : result (list ReportItem) :=
  match (source <- read (open_ file_path) ;; ast_parse source) with
  | Return tree => Return (analyze_tree file_path tree)
  | Raise SyntaxError | Raise OSError | Raise UnicodeDecodeError => Return []
  | Raise e => Raise e
  end.

(** The [with open(...)] block of [analyze_file]: nothing catches what
    [open] or the iteration over the file raises. *)
Definition scan_file (file_path : string) : result (list ReportItem) :=
  match open_ file_path with
  | Unreadable => Raise OSError
  | Undecodable decoded =>
      let items := scan_lines generate_tokens file_path decoded 1 0 in
      Raise UnicodeDecodeError
  | Text source =>
      Return (scan_lines generate_tokens file_path (lines_of source) 1 0)
  end.

Definition analyze_file (file_path : string) : result (list ReportItem) :=
  items <- scan_file file_path ;;
  structural <- analyze_ast_issues file_path ;;
  Return (items ++ structural).

(** [for file_path in ...: all_items.extend(analyze_file(file_path))] *)
Fixpoint analyze_files (paths : list string) : result (list ReportItem) :=
  match paths with
  | [] => Return []
  | file_path :: rest =>
      items <- analyze_file file_path ;;
      others <- analyze_files rest ;;
      Return (items ++ others)
  end.

(** One printed line of the report. *)
Definition render (item : ReportItem) : string :=
  (file_path item ++ ": Line " ++ Str.of_nat (line_number item) ++ ": "
   ++ code item ++ " " ++ message item)%string.

(** [main]: [argv] is [sys.argv]; the result is what is printed, line by
    line, or the exception that ends the run before anything is printed. *)
Definition main (argv : list string) : result (list string) :=
  match argv with
  | [_; input_path] =>
      all_items <- analyze_files (sorted Str.leb (iter_python_files input_path)) ;;
      Return (map render (sorted ReportItem_leb all_items))
  | _ => Return []
  end.

End Analyzer.

(** ** The conventions of the specification, in its words *)

Definition all_chars (p : ascii -> bool) (s : string) : Prop :=
  Forall (fun c => p c = true) (list_ascii_of_string s).

(** An uppercase letter, then letters and digits only. *)
Definition upper_camel_convention (name : string) : Prop :=
  exists c rest,
    name = String c rest /\ Str.is_upper c = true /\ all_chars is_alnum rest.

(** Leading underscores, a lowercase letter, lowercase letters, digits and
    underscores, trailing underscores. *)
Definition snake_convention (name : string) : Prop :=
  exists leading c middle trailing,
    name = (leading ++ String c (middle ++ trailing))%string
    /\ all_chars Str.is_underscore leading
    /\ Str.is_lower c = true
    /\ all_chars is_snake_char middle
    /\ all_chars Str.is_underscore trailing.

(** A line is blank when it is empty after stripping whitespace. *)
Definition is_blank (line : string) : bool := Str.is_empty (Str.strip line).

(** The run of consecutive blank lines that ends just before line [i]
    (counted from 0) of a sequence of lines. *)
Fixpoint leading_blank_run (lines : list string) : nat :=
  match lines with
  | [] => 0
  | line :: rest => if is_blank line then S (leading_blank_run rest) else 0
  end.

Definition blank_run_before (lines : list string) (i : nat) : nat :=
  leading_blank_run (rev (firstn i lines)).

(** Line [i] is not blank and more than two blank lines come just before it. *)
Definition after_long_blank_run (lines : list string) (i : nat) : bool :=
  match nth_error lines i with
  | Some line => negb (is_blank line) && (2 <? blank_run_before lines i)
  | None => false
  end.

Definition has_code (c : string) (item : ReportItem) : bool :=
  String.eqb (code item) c.

Definition S006_at (file_path : string) (line_number : nat) : ReportItem :=
  mkReportItem file_path line_number "S006"
    "More than two blank lines used before this line".

(** ** Token streams, as the specification speaks of them *)

(** The tokens a generator hands out before it stops or fails. *)
Fixpoint tokens_of (tokens : token_stream) : list TokenInfo :=
  match tokens with
  | Yield token rest => token :: tokens_of rest
  | StopIteration => []
  | RaiseTokenError => []
  end.

(** The line cannot be tokenized in isolation: the generator ends by
    raising [TokenError]. *)
Fixpoint ends_in_error (tokens : token_stream) : bool :=
  match tokens with
  | Yield _ rest => ends_in_error rest
  | StopIteration => false
  | RaiseTokenError => true
  end.

Definition is_STRING (t : token_type) : bool :=
  match t with STRING => true | _ => false end.

(** Positions of tokens are (row, column) pairs, compared row first. *)
Definition pos_lt (p q : nat * nat) : bool :=
  (fst p <? fst q) || ((fst p =? fst q) && (snd p <? snd q)).

Definition pos_le (p q : nat * nat) : bool := negb (pos_lt q p).

(** The position [p] lies inside a string literal of the text these tokens
    were made from: after the start of a STRING token and before its end.
    The tokens are those of whatever text was handed to the tokenizer: of a
    whole file, or of one line read alone. *)
Definition in_string_literal (tokens : token_stream) (p : nat * nat) : bool :=
  existsb (fun t => is_STRING (type t)
                    && pos_lt (start t) p && pos_lt p (end_ t))
    (tokens_of tokens).

(** The character [#]. *)
Definition hash : ascii := ascii_of_nat 35.

(** What any tokenizer gives: the tokens come in the order of the text and
    do not overlap; each starts where the one before it ends, or later, and
    ends where it starts, or later. *)
Fixpoint in_order (p : nat * nat) (tokens : list TokenInfo) : bool :=
  match tokens with
  | [] => true
  | t :: rest =>
      pos_le p (start t) && pos_le (start t) (end_ t) && in_order (end_ t) rest
  end.

Definition tokens_in_order (tokens : token_stream) : bool :=
  in_order (0, 0) (tokens_of tokens).

(** ** Example inputs *)

(** A token of the first row. *)
Definition tok (t : token_type) (from to : nat) : TokenInfo :=
  mkToken t (1, from) (1, to).

Fixpoint yield_all (l : list TokenInfo) (finally : token_stream) : token_stream :=
  match l with
  | [] => finally
  | t :: l' => Yield t (yield_all l' finally)
  end.

Definition end_of_input : TokenInfo := mkToken ENDMARKER (2, 0) (2, 0).

(** The lines of the examples and what [tokenize.generate_tokens] yields on
    each: an open call with a comment, where the generator raises at the
    end of input, after the COMMENT token; a string holding a [#] followed
    by a comment; a string holding a [#]; a definition header; an indented
    statement; an assignment; an empty line. *)
Definition line_open_call : string := "foo(  # c".
Definition line_string_and_comment : string := "s = '#'  # c".
Definition line_string_only : string := "x = 'a#b'".
Definition line_header : string := "def myFunction(ArgOne):".
Definition line_pass : string := "    pass".
Definition line_assign : string := "x = 1".

Definition example_tokens : dict token_stream :=
  [ (line_open_call,
     yield_all [tok NAME 0 3; tok OP 3 4; tok COMMENT 6 9] RaiseTokenError);
    (line_string_and_comment,
     yield_all [tok NAME 0 1; tok OP 2 3; tok STRING 4 7; tok COMMENT 9 12;
                tok NEWLINE 12 13; end_of_input] StopIteration);
    (line_string_only,
     yield_all [tok NAME 0 1; tok OP 2 3; tok STRING 4 9; tok NEWLINE 9 10;
                end_of_input] StopIteration);
    (line_header,
     yield_all [tok NAME 0 3; tok NAME 4 14; tok OP 14 15; tok NAME 15 21;
                tok OP 21 22; tok OP 22 23; tok NEWLINE 23 24; end_of_input]
       StopIteration);
    ((line_header ++ newline)%string,
     yield_all [tok NAME 0 3; tok NAME 4 14; tok OP 14 15; tok NAME 15 21;
                tok OP 21 22; tok OP 22 23; tok NEWLINE 23 24; end_of_input]
       StopIteration);
    ((line_pass ++ newline)%string,
     yield_all [tok INDENT 0 4; tok NAME 4 8; tok NEWLINE 8 9;
                mkToken DEDENT (2, 0) (2, 0); end_of_input] StopIteration);
    ((line_assign ++ newline)%string,
     yield_all [tok NAME 0 1; tok OP 2 3; tok NUMBER 4 5; tok NEWLINE 5 6;
                end_of_input] StopIteration);
    ((line_assign ++ ";" ++ newline)%string,
     yield_all [tok NAME 0 1; tok OP 2 3; tok NUMBER 4 5; tok OP 5 6;
                tok NEWLINE 6 7; end_of_input] StopIteration);
    (newline, yield_all [tok NL 0 1; end_of_input] StopIteration) ].

(** The tokenizer on the lines above; no other line is asked in the
    examples. *)
Definition example_tokenizer (line : string) : token_stream :=
  match dict_get example_tokens line with
  | Some tokens => tokens
  | None => StopIteration
  end.

(** A file of three lines, [s = '''] / [x = 1 # ToDo: later] / ['''], whose
    second line is the content of a string literal, and what
    [tokenize.generate_tokens] yields on the whole text and on each of its
    lines read alone: the first and the third line open a string that is
    never closed and fail at the end of input. *)
Definition line_string_opens : string := "s = '''".
Definition line_in_string : string := "x = 1 # ToDo: later".
Definition line_string_closes : string := "'''".

Definition string_file : string :=
  (line_string_opens ++ newline ++ line_in_string ++ newline
   ++ line_string_closes ++ newline)%string.

Definition string_tokens : dict token_stream :=
  [ (string_file,
     yield_all [tok NAME 0 1; tok OP 2 3; mkToken STRING (1, 4) (3, 3);
                mkToken NEWLINE (3, 3) (3, 4); mkToken ENDMARKER (4, 0) (4, 0)]
       StopIteration);
    ((line_string_opens ++ newline)%string,
     yield_all [tok NAME 0 1; tok OP 2 3] RaiseTokenError);
    ((line_in_string ++ newline)%string,
     yield_all [tok NAME 0 1; tok OP 2 3; tok NUMBER 4 5; tok COMMENT 6 19;
                tok NEWLINE 19 20; end_of_input] StopIteration);
    ((line_string_closes ++ newline)%string, RaiseTokenError) ].

Definition string_tokenizer (text : string) : token_stream :=
  match dict_get string_tokens text with
  | Some tokens => tokens
  | None => StopIteration
  end.

(** ** Syntax trees, as the specification speaks of them *)

Definition osize (o : option AST) : nat :=
  match o with Some n => size n | None => 0 end.

Fixpoint osizes (l : list (option AST)) : nat :=
  match l with
  | [] => 0
  | Some n :: l' => size n + osizes l'
  | None :: l' => osizes l'
  end.

(** The names an assignment target binds: a plain name, or a name bound
    by an element of a tuple or list target, at any depth. *)
Inductive target_name : AST -> string -> Prop :=
| target_Name id ctx : target_name (Name id ctx) id
| target_Tuple elts ctx e n :
    In e elts -> target_name e n -> target_name (Tuple elts ctx) n
| target_List elts ctx e n :
    In e elts -> target_name e n -> target_name (List_ elts ctx) n.

(** An attribute, a subscript or a starred element. *)
Definition is_attribute_subscript_starred (target : AST) : bool :=
  match target with
  | Attribute _ _ _ | Subscript _ _ _ | Starred _ _ => true
  | _ => false
  end.

Definition is_starred (target : AST) : bool :=
  match target with Starred _ _ => true | _ => false end.

(** A literal list, mapping or set construction. *)
Inductive mutable_literal : AST -> Prop :=
| literal_list elts ctx : mutable_literal (List_ elts ctx)
| literal_dict keys values : mutable_literal (Dict keys values)
| literal_set elts : mutable_literal (Set_ elts).

(** One or more positional or keyword-only default values is a mutable
    literal. *)
Definition has_mutable_literal_default
    (defaults : list AST) (kw_defaults : list (option AST)) : Prop :=
  exists d, (In d defaults \/ In (Some d) kw_defaults) /\ mutable_literal d.

(** A definition, asynchronous or not. *)
Definition definition (async : bool) : nat -> string -> AST -> list AST ->
    list AST -> option AST -> list AST -> AST :=
  if async then AsyncFunctionDef else FunctionDef.

Definition S010_item (file_path : string) (lineno : nat) (name : string) : ReportItem :=
  mkReportItem file_path lineno "S010"
    ("Argument name '" ++ name ++ "' should use snake_case")%string.

Definition S011_item (file_path : string) (lineno : nat) (name : string) : ReportItem :=
  mkReportItem file_path lineno "S011"
    ("Variable '" ++ name ++ "' in function should use snake_case")%string.

Definition S012_item (file_path : string) (lineno : nat) : ReportItem :=
  mkReportItem file_path lineno "S012" "Default argument value is mutable".

Definition S009_item (file_path : string) (lineno : nat) (name : string) : ReportItem :=
  mkReportItem file_path lineno "S009"
    ("Function name '" ++ name ++ "' should use snake_case")%string.

(** Nodes of the examples. *)
Definition Load : AST := Node "Load" [].
Definition Store : AST := Node "Store" [].
Definition Constant : AST := Node "Constant" [].
Definition Pass : AST := Node "Pass" [].
Definition If (test : AST) (body orelse : list AST) : AST :=
  Node "If" (test :: body ++ orelse).
Definition no_arguments : AST := arguments [] [] None [] [] None [].

(** [BadName = 1] on line [lineno] *)
Definition assign_BadName (lineno : nat) : AST :=
  Assign lineno [Name "BadName" Store] Constant.

(** [def outer():] / [def inner():] / [BadName = 1], on lines 1 to 3. *)
Definition inner_def : AST :=
  FunctionDef 2 "inner" no_arguments [assign_BadName 3] [] None [].

Definition outer_def : AST :=
  FunctionDef 1 "outer" no_arguments [inner_def] [] None [].

Definition nested_def_tree : AST := Module [outer_def].

(** [def outer():] / [class Inner:] / [BadName = 1] *)
Definition outer_with_class : AST :=
  FunctionDef 1 "outer" no_arguments
    [ClassDef 2 "Inner" [] [] [assign_BadName 3] [] []] [] None [].

(** [def outer():] / [if flag:] / [def inner():] / [BadName = 1] *)
Definition outer_with_guarded_def : AST :=
  FunctionDef 1 "outer" no_arguments
    [If (Name "flag" Load)
       [FunctionDef 3 "inner" no_arguments [assign_BadName 4] [] None []] []]
    [] None [].

(** [def f(a=[], b={}):] / [pass] *)
Definition two_mutable_defaults : AST :=
  FunctionDef 1 "f"
    (arguments [] [arg "a" None; arg "b" None] None [] [] None
       [List_ [] Load; Dict [] []])
    [Pass] [] None [].

(** [*BadName, x = value] on line 1 *)
Definition starred_assignment : AST :=
  Assign 1 [Tuple [Starred (Name "BadName" Store) Store; Name "x" Store] Store]
    (Name "value" Load).

(** [def myFunction(ArgOne):] / [pass] *)
Definition header_with_body_tree : AST :=
  Module [FunctionDef 1 "myFunction"
            (arguments [] [arg "ArgOne" None] None [] [] None [])
            [Pass] [] None []].

(** ** Example files *)

Definition source_header : string := line_header.

Definition source_header_with_body : string :=
  (line_header ++ newline ++ line_pass ++ newline)%string.

Definition source_semicolon : string := ("x = 1;" ++ newline)%string.

(** The file system of the examples; nothing else exists, so that [open]
    fails on any other path.  [mixed/bad.py] starts with a byte that is not
    UTF-8. *)
Definition example_files : dict file :=
  [ ("header.py", Text source_header);
    ("clean/a.py", Text source_semicolon);
    ("clean/b.py", Text source_header_with_body);
    ("mixed/a.py", Text source_semicolon);
    ("mixed/bad.py", Undecodable []);
    ("mixed/locked.py", Unreadable) ].

Definition example_open (path : string) : file :=
  match dict_get example_files path with
  | Some f => f
  | None => Unreadable
  end.

(** [ast.parse] on the sources above: a header without a body is not a
    Python program. *)
Definition example_parse (source : string) : result AST :=
  if String.eqb source source_header_with_body then Return header_with_body_tree
  else if String.eqb source source_semicolon
  then Return (Module [Assign 1 [Name "x" Store] Constant])
  else Raise SyntaxError.

(** The traversal, in the order [os.walk] happens to list the files. *)
Definition example_iter_python_files (path : string) : list string :=
  match dict_get [ ("header.py", ["header.py"]);
                   ("clean", ["clean/b.py"; "clean/a.py"]);
                   ("mixed", ["mixed/a.py"; "mixed/bad.py"]);
                   ("mixed/locked.py", ["mixed/locked.py"]) ] path with
  | Some paths => paths
  | None => []
  end.

Definition example_analyze_file : string -> result (list ReportItem) :=
  analyze_file example_tokenizer example_parse example_open.

Definition example_main : list string -> result (list string) :=
  main example_tokenizer example_parse example_open example_iter_python_files.

(** The order of report items, spelled out on the four fields. *)
Definition lexicographic_lt (a b : ReportItem) : Prop :=
  Str.lt (file_path a) (file_path b)
  \/ (file_path a = file_path b
      /\ (line_number a < line_number b
          \/ (line_number a = line_number b
              /\ (Str.lt (code a) (code b)
                  \/ (code a = code b /\ Str.lt (message a) (message b)))))).

(** ** Further notions used by the properties of Part III *)

(** The three results of the comment splitter on a line. *)
Definition code_part_of (generate_tokens : string -> token_stream)
    (line : string) : string :=
  fst (fst (split_code_and_comment generate_tokens line)).

Definition comment_part_of (generate_tokens : string -> token_stream)
    (line : string) : string :=
  snd (fst (split_code_and_comment generate_tokens line)).

Definition comment_col_of (generate_tokens : string -> token_stream)
    (line : string) : Z :=
  snd (split_code_and_comment generate_tokens line).

(** The line rule engine reports the code [c] for a line. *)
Definition reports (generate_tokens : string -> token_stream)
    (raw_line : string) (blank_lines_before : nat) (c : string) : Prop :=
  In c (keys (find_issues_for_line generate_tokens raw_line blank_lines_before)).

(** A run of [n] spaces. *)
Fixpoint spaces (n : nat) : string :=
  match n with
  | 0 => EmptyString
  | S n' => String (ascii_of_nat 32) (spaces n')
  end.

(** The string holds the word "todo", in any mix of upper and lower case. *)
Definition contains_todo (s : string) : Prop :=
  exists before word after,
    s = (before ++ word ++ after)%string
    /\ map Str.lower (list_ascii_of_string word) = list_ascii_of_string "todo".


(** The string holds no newline character: the body of a physical line. *)
Definition no_newline (s : string) : Prop :=
  all_chars (fun c => negb (Str.is_newline c)) s.

Definition starts_with_space (s : string) : bool :=
  match s with
  | String c _ => Str.is_blank_char c
  | EmptyString => false
  end.

(** The line up to its first COMMENT token, the whole line when there is
    none. *)
Definition code_before_comment (generate_tokens : string -> token_stream)
    (line : string) : string :=
  match first_comment_col (generate_tokens line) with
  | Some col => Str.take col line
  | None => line
  end.


(** More lines for the examples of Part III, with what the tokenizer
    yields on each: an assignment followed, after one space, by a comment
    that holds a TODO. *)
Definition line_todo : string := "x = 1 # ToDo: later".

Definition more_tokens : dict token_stream :=
  [ (line_todo,
     yield_all [tok NAME 0 1; tok OP 2 3; tok NUMBER 4 5; tok COMMENT 6 19;
                tok NEWLINE 19 20; end_of_input] StopIteration) ].

Definition more_tokenizer (line : string) : token_stream :=
  match dict_get more_tokens line with
  | Some tokens => tokens
  | None => example_tokenizer line
  end.


(** An identifier as the header patterns read it: a letter or underscore,
    then letters, digits and underscores. *)
Definition is_identifier (name : string) : Prop :=
  exists c tail,
    name = String c tail
    /\ is_ident_start c = true /\ all_chars is_ident_char tail.

(** What follows does not go on with the identifier before it. *)
Definition ends_name (rest : string) : bool :=
  match rest with
  | String c _ => negb (is_ident_char c)
  | EmptyString => true
  end.


(** A parameter: its name and its optional annotation. *)
Definition mk_arg (p : string * option AST) : AST := arg (fst p) (snd p).

Definition opt_list {A : Type} (o : option A) : list A :=
  match o with Some a => [a] | None => [] end.

(** [n] is [t] or lies somewhere below [t]. *)
Inductive subnode : AST -> AST -> Prop :=
| subnode_self t : subnode t t
| subnode_below t c n :
    In c (iter_child_nodes t) -> subnode c n -> subnode t n.

(** Plain name targets. *)
Definition name_targets (names : list string) : list AST :=
  map (fun n => Name n Store) names.


(** ** Discovery of the files *)

(** [os.path.join] of two components, as [posixpath] has it. *)
Definition os_path_join (a b : string) : string :=
  if Str.startswith b "/" then b
  else if Str.is_empty a || Str.endswith a "/" then (a ++ b)%string
  else (a ++ "/" ++ b)%string.

Section Discovery.

(** [os.path.isfile] *)
Variable isfile : string -> bool.

(** [os.walk]: for each directory under a path, its own path, the names
    of its subdirectories and the names of its files. *)
Variable os_walk : string -> list (string * list string * list string).

Definition iter_python_files (path : string) : list string :=
  if isfile path then
    if Str.endswith path ".py" then [path] else []
  else
    flat_map
      (fun entry =>
         let '(root, _, files) := entry in
         map (os_path_join root)
           (filter (fun name => Str.endswith name ".py") files))
      (os_walk path).

End Discovery.

(* ================================================================= *)
(** * Part II: properties *)
(* ================================================================= *)

(** ** Regular expressions: the matcher decides the language *)

Module ReFacts.
Import Re.

Lemma seq_inv r1 r2 w :
  matches (Seq r1 r2) w <-> exists u v, w = u ++ v /\ matches r1 u /\ matches r2 v.
Proof.
  split.
  - inversion 1; subst; eauto.
  - intros (u & v & -> & Hu & Hv). constructor; assumption.
Qed.

Lemma class_inv p w :
  matches (Class p) w <-> exists c, w = [c] /\ p c = true.
Proof.
  split.
  - inversion 1; subst; eauto.
  - intros (c & -> & Hc). constructor; assumption.
Qed.

Lemma matches_eps_inv w : matches Eps w -> w = [].
Proof. inversion 1; reflexivity. Qed.

Lemma matches_null_inv w : ~ matches Null w.
Proof. inversion 1. Qed.

Lemma nullable_spec r : nullable r = true <-> matches r [].
Proof.
  induction r as [p | r1 IH1 r2 IH2 | r IH | r1 IH1 r2 IH2 | | ]; simpl.
  - split; [discriminate | inversion 1].
  - rewrite andb_true_iff, IH1, IH2. split.
    + intros [H1 H2]. apply (MSeq _ _ [] []); assumption.
    + intros H. apply seq_inv in H as (u & v & E & Hu & Hv).
      symmetry in E. apply app_eq_nil in E as [-> ->]. auto.
  - split; [intros _; constructor | reflexivity].
  - rewrite orb_true_iff, IH1, IH2. split.
    + intros [H | H]; [apply MAltL | apply MAltR]; assumption.
    + inversion 1; subst; auto.
  - split; [intros _; constructor | reflexivity].
  - split; [discriminate | inversion 1].
Qed.

(** A non-empty word of [r*] starts with a non-empty word of [r]. *)
Lemma star_cons_inv r c w :
  matches (Star r) (c :: w) ->
  exists u v, w = u ++ v /\ matches r (c :: u) /\ matches (Star r) v.
Proof.
  assert (G : forall sr cw, matches sr cw ->
            forall a x, sr = Star r -> cw = a :: x ->
            exists u v, x = u ++ v /\ matches r (a :: u) /\ matches (Star r) v).
  { induction 1 as [ | | | r' u v Hu _ Hv IHv | | | ]; intros a x Esr Ecw;
      try discriminate.
    injection Esr as ->.
    destruct u as [ | b u'].
    - simpl in Ecw. apply IHv; auto.
    - simpl in Ecw. injection Ecw as -> <-.
      exists u', v. auto. }
  intros H. apply (G _ _ H); reflexivity.
Qed.

Lemma deriv_spec c r : forall w, matches (deriv c r) w <-> matches r (c :: w).
Proof.
  induction r as [p | r1 IH1 r2 IH2 | r IH | r1 IH1 r2 IH2 | | ];
    intros w; simpl.
  - destruct (p c) eqn:Hp; split; intros H.
    + apply matches_eps_inv in H as ->. constructor; assumption.
    + inversion H; subst. constructor.
    + inversion H.
    + inversion H; subst. congruence.
  - assert (Hseq : matches (Seq (deriv c r1) r2) w ->
                   matches (Seq r1 r2) (c :: w)).
    { intros H. apply seq_inv in H as (u & v & -> & Hu & Hv).
      apply (MSeq _ _ (c :: u) v); [apply IH1 | ]; assumption. }
    assert (Hinv : matches (Seq r1 r2) (c :: w) ->
                   matches (Seq (deriv c r1) r2) w
                   \/ (matches r1 [] /\ matches r2 (c :: w))).
    { intros H. apply seq_inv in H as (u & v & Heq & Hu & Hv).
      destruct u as [ | a u'].
      - right. simpl in Heq. subst. auto.
      - left. simpl in Heq. injection Heq as <- ->.
        constructor; [apply IH1 | ]; assumption. }
    destruct (nullable r1) eqn:Hn; split; intros H.
    + inversion H; subst; [auto | ].
      apply (MSeq _ _ [] (c :: w)); [apply nullable_spec | apply IH2]; assumption.
    + destruct (Hinv H) as [H' | [_ H']]; [apply MAltL | apply MAltR]; auto.
      apply IH2; assumption.
    + auto.
    + destruct (Hinv H) as [H' | [H' _]]; auto.
      apply nullable_spec in H'. congruence.
  - split; intros H.
    + inversion H as [ | ? ? u v Hu Hv | | | | | ]; subst.
      apply (MStarCons _ (c :: u) v); [apply IH | ]; assumption.
    + apply star_cons_inv in H as (u & v & -> & Hu & Hv).
      constructor; [apply IH | ]; assumption.
  - split; intros H; inversion H; subst;
      ((apply MAltL; apply IH1; assumption) || (apply MAltR; apply IH2; assumption)
       || (apply MAltL; apply <- IH1; assumption)
       || (apply MAltR; apply <- IH2; assumption)).
  - split; inversion 1.
  - split; inversion 1.
Qed.

Theorem accepts_spec w : forall r, accepts r w = true <-> matches r w.
Proof.
  induction w as [ | c w IH]; intros r; simpl.
  - apply nullable_spec.
  - rewrite IH. apply deriv_spec.
Qed.

Lemma star_class_spec p w :
  matches (Star (Class p)) w <-> Forall (fun c => p c = true) w.
Proof.
  split.
  - intros H. remember (Star (Class p)) as sr eqn:E.
    induction H as [ | | | r u v Hu _ Hv IHv | | | ]; try discriminate.
    + constructor.
    + injection E as ->. inversion Hu; subst. simpl.
      constructor; auto.
  - induction 1 as [ | c w Hc _ IH].
    + constructor.
    + apply (MStarCons _ [c] w); [constructor | ]; assumption.
Qed.

End ReFacts.

(** ** Naming classifiers *)

Lemma list_ascii_of_string_app a b :
  list_ascii_of_string (a ++ b)%string
  = list_ascii_of_string a ++ list_ascii_of_string b.
Proof. induction a as [ | c a IH]; simpl; [ | rewrite IH]; reflexivity. Qed.

Lemma string_of_list_ascii_app u v :
  string_of_list_ascii (u ++ v)
  = (string_of_list_ascii u ++ string_of_list_ascii v)%string.
Proof. induction u as [ | c u IH]; simpl; [ | rewrite IH]; reflexivity. Qed.

Lemma all_chars_of_list p w :
  Forall (fun c => p c = true) w -> all_chars p (string_of_list_ascii w).
Proof.
  unfold all_chars. now rewrite list_ascii_of_string_of_list_ascii.
Qed.

Lemma is_camel_case_spec name :
  is_camel_case name = true <-> upper_camel_convention name.
Proof.
  unfold is_camel_case, Re.fullmatch, RE_CAMEL, upper_camel_convention.
  rewrite ReFacts.accepts_spec, ReFacts.seq_inv. split.
  - intros (u & v & E & Hu & Hv).
    apply ReFacts.class_inv in Hu as (c & -> & Hc).
    apply ReFacts.star_class_spec in Hv.
    exists c, (string_of_list_ascii v). repeat split.
    + rewrite <- (string_of_list_ascii_of_string name), E. reflexivity.
    + assumption.
    + apply all_chars_of_list; assumption.
  - intros (c & rest & -> & Hc & Hrest).
    exists [c], (list_ascii_of_string rest). repeat split.
    + apply ReFacts.class_inv. eauto.
    + apply ReFacts.star_class_spec. assumption.
Qed.

Lemma is_snake_case_spec name :
  is_snake_case name = true <-> snake_convention name.
Proof.
  unfold is_snake_case, Re.fullmatch, RE_SNAKE, snake_convention.
  rewrite ReFacts.accepts_spec. split.
  - intros H.
    apply ReFacts.seq_inv in H as (u & x & E & Hu & H).
    apply ReFacts.seq_inv in H as (k & y & -> & Hk & H).
    apply ReFacts.seq_inv in H as (m & t & -> & Hm & Ht).
    apply ReFacts.class_inv in Hk as (c & -> & Hc).
    apply ReFacts.star_class_spec in Hu, Hm, Ht.
    exists (string_of_list_ascii u), c,
      (string_of_list_ascii m), (string_of_list_ascii t).
    repeat split; try (apply all_chars_of_list; assumption); try assumption.
    rewrite <- (string_of_list_ascii_of_string name), E.
    rewrite string_of_list_ascii_app. simpl.
    rewrite string_of_list_ascii_app. reflexivity.
  - intros (l & c & m & t & -> & Hl & Hc & Hm & Ht).
    rewrite list_ascii_of_string_app. simpl.
    rewrite list_ascii_of_string_app.
    apply ReFacts.seq_inv. exists (list_ascii_of_string l), (c :: list_ascii_of_string m ++ list_ascii_of_string t).
    split; [reflexivity | split; [apply ReFacts.star_class_spec; assumption | ]].
    apply ReFacts.seq_inv. exists [c], (list_ascii_of_string m ++ list_ascii_of_string t).
    split; [reflexivity | split; [apply ReFacts.class_inv; eauto | ]].
    constructor; apply ReFacts.star_class_spec; assumption.
Qed.

(** C6: the upper-camel check accepts exactly the names made of an uppercase
    letter followed by letters and digits only, the snake check accepts
    exactly the names made of leading underscores, a lowercase letter, then
    lowercase letters, digits and underscores, then trailing underscores;
    "Foo" and "FooBar2" pass the first and "foo", "Foo_Bar", "2Foo" fail it;
    "foo", "_foo", "__init__", "foo_bar_2" pass the second and "Foo",
    "fooBar", "2foo" fail it. *)
Theorem naming_classifiers_match_conventions :
  (forall name, is_camel_case name = true <-> upper_camel_convention name)
  /\ (forall name, is_snake_case name = true <-> snake_convention name)
  /\ map is_camel_case ["Foo"; "FooBar2"; "foo"; "Foo_Bar"; "2Foo"]
     = [true; true; false; false; false]
  /\ map is_snake_case
       ["foo"; "_foo"; "__init__"; "foo_bar_2"; "Foo"; "fooBar"; "2foo"]
     = [true; true; true; true; false; false; false].
Proof.
  split; [exact is_camel_case_spec | ].
  split; [exact is_snake_case_spec | ].
  split; reflexivity.
Qed.

(** ** Orders: strings, naturals and report items *)

Section TotalOrderFacts.
Context {A : Type} (cmp : A -> A -> comparison) `{!TotalOrder cmp}.

Lemma cmp_refl a : cmp a a = Eq.
Proof.
  pose proof (cmp_antisym a a) as H.
  destruct (cmp a a); simpl in H; congruence.
Qed.

Lemma cmp_leb_total a b : cmp_leb cmp a b = true \/ cmp_leb cmp b a = true.
Proof.
  unfold cmp_leb. rewrite (cmp_antisym a b).
  destruct (cmp a b); simpl; auto.
Qed.

Lemma cmp_leb_trans a b c :
  cmp_leb cmp a b = true -> cmp_leb cmp b c = true -> cmp_leb cmp a c = true.
Proof.
  unfold cmp_leb. intros Hab Hbc.
  destruct (cmp a b) eqn:Eab; try discriminate.
  - apply cmp_eq in Eab as ->. assumption.
  - destruct (cmp b c) eqn:Ebc; try discriminate.
    + apply cmp_eq in Ebc as <-. now rewrite Eab.
    + now rewrite (cmp_trans a b c Eab Ebc).
Qed.


Lemma cmp_leb_neq_lt a b : cmp_leb cmp a b = true -> a <> b -> cmp a b = Lt.
Proof.
  unfold cmp_leb. destruct (cmp a b) eqn:E; try discriminate; auto.
  intros _ Hne. apply cmp_eq in E. contradiction.
Qed.
End TotalOrderFacts.

#[global] Instance Str_compare_order : TotalOrder Str.compare.
Proof.
  assert (Hirr : forall a, ~ String_as_OT.lt a a).
  { intros a. apply (@StrictOrder_Irreflexive _ _ String_as_OT.lt_strorder). }
  assert (Htr : forall a b c, String_as_OT.lt a b -> String_as_OT.lt b c ->
                              String_as_OT.lt a c).
  { intros a b c. apply (@StrictOrder_Transitive _ _ String_as_OT.lt_strorder). }
  split; unfold Str.compare.
  - intros a b H. destruct (String_as_OT.compare_spec a b); congruence.
  - intros a b.
    destruct (String_as_OT.compare_spec a b) as [E | L | L],
             (String_as_OT.compare_spec b a) as [E' | L' | L'];
      simpl; try reflexivity; unfold String_as_OT.eq in *; subst; exfalso;
      solve [ eapply Hirr; eassumption
            | eapply Hirr; eapply Htr; eassumption ].
  - exact Htr.
Qed.

#[global] Instance Nat_compare_order : TotalOrder Nat.compare.
Proof.
  split.
  - intros a b. apply Nat.compare_eq_iff.
  - intros a b. apply Nat.compare_antisym.
  - intros a b c. rewrite !Nat.compare_lt_iff. lia.
Qed.

(** Comparing a first component, then the rest, is again a total order. *)
Lemma compare_then_order {A B C : Type} (f : C -> A) (g : C -> B)
    (cmpA : A -> A -> comparison) (cmpB : B -> B -> comparison)
    (HA : TotalOrder cmpA) (HB : TotalOrder cmpB)
    (inj : forall x y, f x = f y -> g x = g y -> x = y) :
  TotalOrder (fun x y => compare_then (cmpA (f x) (f y)) (cmpB (g x) (g y))).
Proof.
  split.
  - intros x y. unfold compare_then.
    destruct (cmpA (f x) (f y)) eqn:EA; try discriminate.
    intros EB. apply inj; [apply (cmp_eq _ _ EA) | apply (cmp_eq _ _ EB)].
  - intros x y. unfold compare_then.
    rewrite (cmp_antisym (f x) (f y)), (cmp_antisym (g x) (g y)).
    destruct (cmpA (f x) (f y)); reflexivity.
  - intros x y z. unfold compare_then.
    destruct (cmpA (f x) (f y)) eqn:Exy; try discriminate;
      destruct (cmpA (f y) (f z)) eqn:Eyz; try discriminate; intros Hxy Hyz.
    + apply cmp_eq in Exy, Eyz. rewrite Exy, Eyz, (cmp_refl cmpA).
      eapply cmp_trans; eassumption.
    + apply cmp_eq in Exy. rewrite Exy, Eyz. reflexivity.
    + apply cmp_eq in Eyz. rewrite <- Eyz, Exy. reflexivity.
    + rewrite (cmp_trans _ _ _ Exy Eyz). reflexivity.
Qed.

#[global] Instance ReportItem_compare_order : TotalOrder ReportItem_compare.
Proof.
  assert (O3 : TotalOrder (fun p q : string * string =>
                 compare_then (Str.compare (fst p) (fst q))
                   (Str.compare (snd p) (snd q)))).
  { apply (compare_then_order fst snd); try exact _.
    intros [? ?] [? ?]; simpl; congruence. }
  assert (O2 : TotalOrder (fun p q : nat * (string * string) =>
                 compare_then (Nat.compare (fst p) (fst q))
                   (compare_then (Str.compare (fst (snd p)) (fst (snd q)))
                      (Str.compare (snd (snd p)) (snd (snd q)))))).
  { apply (compare_then_order fst snd Nat.compare _ _ O3).
    intros [? ?] [? ?]; simpl; congruence. }
  apply (compare_then_order file_path
           (fun x => (line_number x, (code x, message x))) Str.compare _ _ O2).
  intros [? ? ? ?] [? ? ? ?]; simpl. congruence.
Qed.

(** ** Sorting *)

Section SortedFacts.
Context {A : Type} (leb : A -> A -> bool).

Lemma insert_Permutation x l : Permutation (insert leb x l) (x :: l).
Proof.
  induction l as [ | y l IH]; simpl.
  - reflexivity.
  - destruct (leb x y).
    + reflexivity.
    + rewrite IH. apply perm_swap.
Qed.

Lemma sorted_Permutation l : Permutation (sorted leb l) l.
Proof.
  induction l as [ | x l IH]; simpl.
  - reflexivity.
  - rewrite insert_Permutation. apply perm_skip. exact IH.
Qed.

Hypothesis leb_total : forall a b, leb a b = true \/ leb b a = true.
Hypothesis leb_trans : forall a b c, ordered_by leb a b -> ordered_by leb b c -> ordered_by leb a c.

Lemma insert_StronglySorted x l :
  StronglySorted (ordered_by leb) l -> StronglySorted (ordered_by leb) (insert leb x l).
Proof.
  induction 1 as [ | y l Hl IH Hy]; simpl.
  - repeat constructor.
  - destruct (leb x y) eqn:Exy.
    + constructor; [constructor; assumption | ].
      constructor; [exact Exy | ].
      eapply Forall_impl; [ | exact Hy]. intros z. apply leb_trans. exact Exy.
    + constructor; [exact IH | ].
      assert (Hyx : ordered_by leb y x) by (destruct (leb_total x y); [congruence | assumption]).
      eapply Permutation_Forall.
      * symmetry. apply insert_Permutation.
      * constructor; assumption.
Qed.

Lemma sorted_StronglySorted l : StronglySorted (ordered_by leb) (sorted leb l).
Proof.
  induction l as [ | x l IH]; simpl.
  - constructor.
  - apply insert_StronglySorted. exact IH.
Qed.

End SortedFacts.


(** ** The per-line finding list: one finding per code, in code order *)

Lemma dict_get_None {V : Type} (d : dict V) k :
  dict_get d k = None <-> ~ In k (keys d).
Proof.
  unfold keys. induction d as [ | [k' v] d IH]; simpl.
  - tauto.
  - destruct (String.eqb_spec k k') as [-> | Hne].
    + split; [discriminate | intros H; exfalso; apply H; left; reflexivity].
    + rewrite IH. split.
      * intros H [E | HI]; [congruence | contradiction].
      * intros H HI. apply H. right. exact HI.
Qed.

Lemma setdefault_keys_NoDup {V : Type} (d : dict V) k v :
  NoDup (keys d) -> NoDup (keys (setdefault d k v)).
Proof.
  intros Hd. unfold setdefault. destruct (dict_get d k) eqn:E; [exact Hd | ].
  apply dict_get_None in E. unfold keys in *. rewrite map_app. simpl.
  apply NoDup_app; [exact Hd | repeat constructor; simpl; tauto | ].
  intros x Hx [<- | []]. contradiction.
Qed.

Lemma setdefault_keys_incl {V : Type} (d : dict V) k v x :
  In x (keys (setdefault d k v)) -> In x (keys d) \/ x = k.
Proof.
  unfold setdefault. destruct (dict_get d k); [auto | ].
  unfold keys. rewrite map_app, in_app_iff. simpl. intuition.
Qed.

Lemma unique_by_code_from_NoDup (found : list (string * kwargs)) :
  forall uniq : dict kwargs,
  NoDup (keys uniq) ->
  NoDup (keys (fold_left (fun u item => setdefault u (fst item) (snd item))
                    found uniq)).
Proof.
  induction found as [ | item found IH]; intros uniq Hu; simpl.
  - exact Hu.
  - apply IH. apply setdefault_keys_NoDup. exact Hu.
Qed.

Lemma unique_by_code_NoDup found : NoDup (keys (unique_by_code found)).
Proof. apply unique_by_code_from_NoDup. constructor. Qed.

Lemma unique_by_code_from_incl (found : list (string * kwargs)) :
  forall (uniq : dict kwargs) x,
  In x (keys (fold_left (fun u item => setdefault u (fst item) (snd item))
                   found uniq)) ->
  In x (keys uniq) \/ In x (map fst found).
Proof.
  induction found as [ | item found IH]; intros uniq x Hx; simpl in *.
  - auto.
  - apply IH in Hx as [Hx | Hx]; [ | auto].
    apply setdefault_keys_incl in Hx as [Hx | Hx]; auto.
Qed.

Lemma unique_by_code_incl found x :
  In x (keys (unique_by_code found)) -> In x (map fst found).
Proof.
  intros H. apply unique_by_code_from_incl in H as [[] | H]. exact H.
Qed.

Lemma sorted_by_code_Permutation items :
  Permutation (sorted_by_code items) items.
Proof. apply sorted_Permutation. Qed.

Lemma Str_leb_total a b : Str.leb a b = true \/ Str.leb b a = true.
Proof. apply (cmp_leb_total Str.compare). Qed.

Lemma Str_leb_trans a b c :
  Str.leb a b = true -> Str.leb b c = true -> Str.leb a c = true.
Proof. apply (cmp_leb_trans Str.compare). Qed.

Lemma sorted_by_code_keys_sorted items :
  StronglySorted (fun a b => Str.leb a b = true) (map fst (sorted_by_code items)).
Proof.
  assert (H : StronglySorted
                (ordered_by (fun x y : string * kwargs => Str.leb (fst x) (fst y)))
                (sorted_by_code items)).
  { apply sorted_StronglySorted.
    - intros a b. apply Str_leb_total.
    - intros a b c. apply Str_leb_trans. }
  induction H as [ | x l _ IH Hx]; simpl; constructor.
  - exact IH.
  - rewrite Forall_forall in *. intros k Hk.
    apply in_map_iff in Hk as (y & <- & Hy). apply Hx. exact Hy.
Qed.

(** Sorted without repetition is strictly ascending. *)
Lemma sorted_NoDup_strict (l : list string) :
  StronglySorted (fun a b => Str.leb a b = true) l -> NoDup l ->
  StronglySorted Str.lt l.
Proof.
  induction 1 as [ | x l _ IH Hx]; intros Hnd; constructor.
  - apply IH. inversion Hnd; assumption.
  - inversion Hnd as [ | ? ? Hnotin _]; subst.
    rewrite Forall_forall in *. intros y Hy.
    apply (cmp_leb_neq_lt Str.compare); [apply Hx; exact Hy | ].
    intros ->. contradiction.
Qed.

(** C8: for every physical line and every count of blank lines before it,
    the finding list of the line has at most one finding per rule code and
    is in ascending order of rule code, whatever the tokenizer answers. *)
Theorem find_issues_for_line_unique_sorted
    (generate_tokens : string -> token_stream)
    (raw_line : string) (blank_lines_before : nat) :
  let codes :=
    map fst (find_issues_for_line generate_tokens raw_line blank_lines_before) in
  NoDup codes /\ StronglySorted Str.lt codes.
Proof.
  unfold find_issues_for_line.
  destruct (split_code_and_comment generate_tokens raw_line)
    as [[code_part comment_part] comment_col].
  set (found := collect _ ++ _).
  assert (Hnd : NoDup (map fst (sorted_by_code (unique_by_code found)))).
  { eapply Permutation_NoDup.
    - apply Permutation_map. symmetry. apply sorted_by_code_Permutation.
    - apply unique_by_code_NoDup. }
  split; [exact Hnd | ].
  apply sorted_NoDup_strict; [apply sorted_by_code_keys_sorted | exact Hnd].
Qed.

(** ** What the checks can answer *)

Lemma dict_get_app {V : Type} (a b : dict V) k :
  dict_get (a ++ b) k
  = match dict_get a k with Some v => Some v | None => dict_get b k end.
Proof.
  induction a as [ | [k' v] a IH]; simpl; [reflexivity | ].
  destruct (String.eqb k k'); [reflexivity | exact IH].
Qed.

Lemma dict_get_setdefault {V : Type} (d : dict V) k v k' :
  dict_get (setdefault d k v) k'
  = match dict_get d k' with
    | Some x => Some x
    | None => if String.eqb k' k then Some v else None
    end.
Proof.
  unfold setdefault. destruct (dict_get d k) eqn:E.
  - destruct (dict_get d k') eqn:E'; [reflexivity | ].
    destruct (String.eqb_spec k' k) as [-> | _]; congruence.
  - rewrite dict_get_app. simpl. reflexivity.
Qed.

(** [uniq] keeps, for every code, the first entry of [found]. *)
Lemma dict_get_unique_from (found : list (string * kwargs)) :
  forall (uniq : dict kwargs) k,
    dict_get (fold_left (fun u item => setdefault u (fst item) (snd item))
                found uniq) k
    = match dict_get uniq k with Some v => Some v | None => dict_get found k end.
Proof.
  induction found as [ | [k0 v0] found IH]; intros uniq k; simpl.
  - destruct (dict_get uniq k); reflexivity.
  - rewrite IH, dict_get_setdefault.
    destruct (dict_get uniq k); [reflexivity | ].
    destruct (String.eqb k k0); reflexivity.
Qed.

Lemma dict_get_unique_by_code found k :
  dict_get (unique_by_code found) k = dict_get found k.
Proof. unfold unique_by_code. now rewrite dict_get_unique_from. Qed.

Lemma with_key_NoDup {V : Type} (d : dict V) k :
  NoDup (keys d) ->
  with_key k d = match dict_get d k with Some v => [(k, v)] | None => [] end.
Proof.
  unfold keys, with_key. induction d as [ | [k' v] d IH]; simpl; intros Hnd.
  - reflexivity.
  - inversion Hnd as [ | ? ? Hnotin Hnd']; subst.
    rewrite (String.eqb_sym k' k).
    destruct (String.eqb_spec k k') as [-> | Hne].
    + assert (E : dict_get d k' = None) by (apply dict_get_None; exact Hnotin).
      rewrite IH, E by assumption. reflexivity.
    + apply IH. assumption.
Qed.

Lemma filter_Permutation {A : Type} (f : A -> bool) (l l' : list A) :
  Permutation l l' -> Permutation (filter f l) (filter f l').
Proof.
  induction 1 as [ | x l l' _ IH | x y l | l l' l'' _ IH1 _ IH2]; simpl.
  - constructor.
  - destruct (f x); [apply perm_skip | ]; exact IH.
  - destruct (f x), (f y); try reflexivity. apply perm_swap.
  - etransitivity; eassumption.
Qed.

(** After [unique_by_code] and [sorted_by_code], a code is listed once, with
    the arguments of its first finding, or not at all. *)
Lemma with_key_issues found k :
  with_key k (sorted_by_code (unique_by_code found))
  = match dict_get found k with Some v => [(k, v)] | None => [] end.
Proof.
  assert (P : Permutation (with_key k (unique_by_code found))
                (with_key k (sorted_by_code (unique_by_code found)))).
  { apply filter_Permutation. symmetry. apply sorted_by_code_Permutation. }
  rewrite (with_key_NoDup _ _ (unique_by_code_NoDup found)),
    dict_get_unique_by_code in P.
  destruct (dict_get found k).
  - apply Permutation_length_1_inv in P. exact P.
  - apply Permutation_nil in P. exact P.
Qed.

Lemma check_s001_cases raw_line :
  check_s001 raw_line = None \/ check_s001 raw_line = Some "S001".
Proof. unfold check_s001. destruct (_ <? _); auto. Qed.

Lemma check_s002_cases raw_line :
  check_s002 raw_line = None \/ check_s002 raw_line = Some "S002".
Proof.
  unfold check_s002. destruct (Str.is_empty _); auto. destruct (negb _); auto.
Qed.

Lemma check_s003_cases code_part :
  check_s003 code_part = None \/ check_s003 code_part = Some "S003".
Proof. unfold check_s003. destruct (Str.endswith _ _); auto. Qed.

Lemma check_s004_cases code_part comment_col :
  check_s004 code_part comment_col = None
  \/ check_s004 code_part comment_col = Some "S004".
Proof.
  unfold check_s004. destruct (_ =? _)%Z; auto.
  destruct (Str.is_empty _); auto. destruct (negb _); auto.
Qed.

Lemma check_s005_cases comment_part :
  check_s005 comment_part = None \/ check_s005 comment_part = Some "S005".
Proof. unfold check_s005. destruct (_ && _); auto. Qed.

Lemma check_s006_spec blank_lines_before raw_line :
  check_s006 blank_lines_before raw_line
  = if negb (is_blank raw_line) && (2 <? blank_lines_before)
    then Some "S006" else None.
Proof. reflexivity. Qed.

(** The header check answers with S007, S008 and S009 only. *)
Lemma check_s007_s008_s009_keys raw_line k :
  In k (keys (check_s007_s008_s009 raw_line)) ->
  k = "S007" \/ k = "S008" \/ k = "S009".
Proof.
  unfold check_s007_s008_s009, keys.
  destruct (RE_CLASS_match raw_line) as [[spaces name] | ].
  - destruct (1 <? _), (negb _); simpl; intuition.
  - destruct (RE_DEF_match raw_line) as [[spaces name] | ].
    + destruct (1 <? _), (negb _); simpl; intuition.
    + simpl. tauto.
Qed.

Lemma dict_get_header_other raw_line k :
  k <> "S007" -> k <> "S008" -> k <> "S009" ->
  dict_get (check_s007_s008_s009 raw_line) k = None.
Proof.
  intros H7 H8 H9. apply dict_get_None. intros H.
  apply check_s007_s008_s009_keys in H. intuition.
Qed.

(** Every code of a line's finding list is a key of the catalog, so
    [MESSAGES[code]] never fails in [analyze_file]. *)
Lemma find_issues_codes_in_catalog generate_tokens raw_line blank_lines_before k :
  In k (keys (find_issues_for_line generate_tokens raw_line blank_lines_before)) ->
  In k (keys MESSAGES).
Proof.
  unfold find_issues_for_line.
  destruct (split_code_and_comment generate_tokens raw_line)
    as [[code_part comment_part] comment_col].
  intros H.
  eapply Permutation_in in H;
    [ | apply Permutation_map; apply sorted_by_code_Permutation].
  apply unique_by_code_incl in H.
  rewrite map_app, in_app_iff in H. destruct H as [H | H].
  - rewrite check_s006_spec in H. revert H.
    destruct (check_s001_cases raw_line) as [-> | ->],
             (check_s002_cases raw_line) as [-> | ->],
             (check_s003_cases code_part) as [-> | ->],
             (check_s004_cases code_part comment_col) as [-> | ->],
             (check_s005_cases comment_part) as [-> | ->],
             (negb (is_blank raw_line) && (2 <? blank_lines_before));
      simpl; intuition.
  - apply check_s007_s008_s009_keys in H. simpl. intuition.
Qed.

(** ** The blank-line run and S006 *)

Lemma filter_line_items file_path n c issues :
  filter (has_code c) (line_items file_path n issues)
  = line_items file_path n (with_key c issues).
Proof.
  unfold line_items, with_key, has_code.
  induction issues as [ | [k fmt] issues IH]; simpl; [reflexivity | ].
  rewrite IH. destruct (String.eqb k c); reflexivity.
Qed.

(** What one line contributes under the code S006. *)
Lemma S006_of_line generate_tokens file_path n raw_line blank_lines_before :
  filter (has_code "S006")
    (line_items file_path n
       (find_issues_for_line generate_tokens raw_line blank_lines_before))
  = if negb (is_blank raw_line) && (2 <? blank_lines_before)
    then [S006_at file_path n] else [].
Proof.
  rewrite filter_line_items. unfold find_issues_for_line.
  destruct (split_code_and_comment generate_tokens raw_line)
    as [[code_part comment_part] comment_col].
  rewrite with_key_issues, dict_get_app, check_s006_spec.
  rewrite (dict_get_header_other raw_line "S006")
    by (apply String.eqb_neq; reflexivity).
  destruct (check_s001_cases raw_line) as [-> | ->],
           (check_s002_cases raw_line) as [-> | ->],
           (check_s003_cases code_part) as [-> | ->],
           (check_s004_cases code_part comment_col) as [-> | ->],
           (check_s005_cases comment_part) as [-> | ->],
           (negb (is_blank raw_line) && (2 <? blank_lines_before));
    reflexivity.
Qed.

Lemma next_blank_lines_spec blank_lines_before raw_line :
  next_blank_lines blank_lines_before raw_line
  = if is_blank raw_line then S blank_lines_before else 0.
Proof. reflexivity. Qed.

Lemma blank_run_before_end (seen rest : list string) :
  blank_run_before (seen ++ rest) (length seen) = leading_blank_run (rev seen).
Proof.
  unfold blank_run_before.
  rewrite firstn_app, Nat.sub_diag, firstn_all. simpl. now rewrite app_nil_r.
Qed.

(** The counter of the loop is the blank run before the current line. *)
Lemma blank_run_step (seen : list string) raw_line :
  leading_blank_run (rev (seen ++ [raw_line]))
  = next_blank_lines (leading_blank_run (rev seen)) raw_line.
Proof. rewrite rev_app_distr. reflexivity. Qed.

Lemma scan_lines_S006 generate_tokens file_path (lines : list string) :
  forall seen : list string,
    filter (has_code "S006")
      (scan_lines generate_tokens file_path lines (S (length seen))
         (leading_blank_run (rev seen)))
    = map (fun i => S006_at file_path (S i))
        (filter (after_long_blank_run (seen ++ lines))
           (seq (length seen) (length lines))).
Proof.
  induction lines as [ | raw_line rest IH]; intros seen; simpl.
  - reflexivity.
  - rewrite filter_app, S006_of_line.
    specialize (IH (seen ++ [raw_line])).
    rewrite blank_run_step, length_app, <- app_assoc in IH. simpl in IH.
    rewrite Nat.add_1_r in IH. rewrite IH.
    unfold after_long_blank_run at 2.
    rewrite nth_error_app2, Nat.sub_diag by reflexivity. simpl.
    rewrite blank_run_before_end.
    destruct (negb (is_blank raw_line) && _); reflexivity.
Qed.

(** C7: over any sequence of physical lines, the S006 findings of the line
    scanner are exactly one finding for each line that is not blank and
    comes just after a run of more than two blank lines, a line being blank
    when it is empty after stripping whitespace; the counter of the scanner
    goes to zero on a non-blank line and up by one on a blank line; three
    blank lines then a non-blank line give one S006, on that line, and two
    blank lines then a non-blank line give none. *)
Theorem S006_exactly_after_long_blank_runs
    (generate_tokens : string -> token_stream) (file_path : string) :
  (forall lines,
     filter (has_code "S006") (scan_lines generate_tokens file_path lines 1 0)
     = map (fun i => S006_at file_path (S i))
         (filter (after_long_blank_run lines) (seq 0 (length lines))))
  /\ (forall blank_lines_before raw_line,
        next_blank_lines blank_lines_before raw_line
        = if is_blank raw_line then S blank_lines_before else 0)
  /\ filter (has_code "S006")
       (scan_lines generate_tokens file_path
          [newline; newline; newline; ("x = 1" ++ newline)%string] 1 0)
     = [S006_at file_path 4]
  /\ filter (has_code "S006")
       (scan_lines generate_tokens file_path
          [newline; newline; ("x = 1" ++ newline)%string] 1 0)
     = [].
Proof.
  assert (H : forall lines,
     filter (has_code "S006") (scan_lines generate_tokens file_path lines 1 0)
     = map (fun i => S006_at file_path (S i))
         (filter (after_long_blank_run lines) (seq 0 (length lines)))).
  { intros lines. exact (scan_lines_S006 generate_tokens file_path lines []). }
  split; [exact H | ].
  split; [exact next_blank_lines_spec | ].
  split; rewrite H; reflexivity.
Qed.

(** ** The comment splitter *)

Lemma first_comment_col_Some tokens col :
  first_comment_col tokens = Some col ->
  exists t, In t (tokens_of tokens) /\ type t = COMMENT /\ snd (start t) = col.
Proof.
  induction tokens as [t rest IH | | ]; simpl; try discriminate.
  destruct (type t) eqn:Et; simpl;
    try (intros H; destruct (IH H) as (t' & Hin & Hty & Hcol);
         exists t'; auto).
  intros [= <-]. exists t. auto.
Qed.

Lemma first_comment_col_None tokens :
  (forall t, In t (tokens_of tokens) -> type t <> COMMENT) ->
  first_comment_col tokens = None.
Proof.
  intros H. destruct (first_comment_col tokens) as [col | ] eqn:E; [ | reflexivity].
  apply first_comment_col_Some in E as (t & Hin & Hty & _).
  exfalso. exact (H t Hin Hty).
Qed.

Lemma first_comment_col_tokens a : forall b,
  tokens_of a = tokens_of b -> first_comment_col a = first_comment_col b.
Proof.
  induction a as [t rest IH | | ]; intros [t' rest' | | ] E;
    simpl in E; try discriminate; try reflexivity.
  injection E as Et E. subst t'. simpl. rewrite (IH _ E). reflexivity.
Qed.

Lemma first_comment_col_found tokens t :
  In t (tokens_of tokens) -> type t = COMMENT ->
  exists col, first_comment_col tokens = Some col.
Proof.
  induction tokens as [t0 rest IH | | ]; simpl; intros Hin Hty;
    try (destruct Hin).
  - subst t0. rewrite Hty. simpl. eauto.
  - destruct (is_COMMENT (type t0)); eauto.
Qed.

Lemma first_comment_col_first before : forall tokens t after,
  tokens_of tokens = before ++ t :: after ->
  (forall t', In t' before -> type t' <> COMMENT) ->
  type t = COMMENT ->
  first_comment_col tokens = Some (snd (start t)).
Proof.
  induction before as [ | b before IH]; intros [t0 rest | | ] t after E Hb Ht;
    simpl in E; try discriminate; injection E as E0 E; subst t0; simpl.
  - rewrite Ht. reflexivity.
  - assert (Hnot : is_COMMENT (type b) = false).
    { destruct (type b) eqn:Eb; try reflexivity.
      exfalso. apply (Hb b); [left; reflexivity | exact Eb]. }
    rewrite Hnot. apply (IH rest t after E); [ | exact Ht].
    intros t' Hin. apply Hb. right. exact Hin.
Qed.

Lemma pos_lt_spec p q :
  pos_lt p q = true <-> fst p < fst q \/ (fst p = fst q /\ snd p < snd q).
Proof.
  unfold pos_lt.
  rewrite Bool.orb_true_iff, Bool.andb_true_iff, !Nat.ltb_lt, Nat.eqb_eq.
  tauto.
Qed.

Lemma pos_le_spec p q :
  pos_le p q = true <-> fst p < fst q \/ (fst p = fst q /\ snd p <= snd q).
Proof.
  unfold pos_le.
  rewrite Bool.negb_true_iff, <- Bool.not_true_iff_false, pos_lt_spec. lia.
Qed.

(** Every token of an ordered list starts at the given position or later. *)
Lemma in_order_from tokens : forall p t,
  in_order p tokens = true -> In t tokens ->
  pos_le p (start t) = true /\ pos_le (start t) (end_ t) = true.
Proof.
  induction tokens as [ | t0 rest IH]; intros p t H Hin; [destruct Hin | ].
  simpl in H. apply Bool.andb_true_iff in H as [H Hrest].
  apply Bool.andb_true_iff in H as [H1 H2].
  destruct Hin as [<- | Hin]; [auto | ].
  destruct (IH _ _ Hrest Hin) as [H3 H4]. split; [ | exact H4].
  apply pos_le_spec in H1, H2, H3. apply pos_le_spec. lia.
Qed.

(** No token of an ordered list starts inside another one. *)
Lemma in_order_apart tokens : forall p s t,
  in_order p tokens = true -> In s tokens -> In t tokens ->
  pos_lt (start s) (start t) = true -> pos_lt (start t) (end_ s) = true ->
  False.
Proof.
  induction tokens as [ | t0 rest IH]; intros p s t H Hs Ht H1 H2;
    [destruct Hs | ].
  simpl in H. apply Bool.andb_true_iff in H as [H Hrest].
  apply Bool.andb_true_iff in H as [_ H0].
  apply pos_lt_spec in H1 as H1'. apply pos_lt_spec in H2 as H2'.
  apply pos_le_spec in H0.
  destruct Hs as [<- | Hs], Ht as [<- | Ht].
  - lia.
  - destruct (in_order_from _ _ _ Hrest Ht) as [H3 _].
    apply pos_le_spec in H3. lia.
  - destruct (in_order_from _ _ _ Hrest Hs) as [H3 _].
    apply pos_le_spec in H3. lia.
  - exact (IH _ _ _ Hrest Hs Ht H1 H2).
Qed.

(** C5, as the code has it: the comment splitter depends on nothing but its
    line and the tokens the tokenizer yields for that line read alone,
    whether the tokenizer then stops or fails; the line is returned whole,
    terminator stripped, with an empty comment part and the column -1,
    exactly when no COMMENT token is among them; otherwise it is split at
    the column of the first COMMENT token, also when the tokenizer fails
    after it; the place of the split is the start of a COMMENT token, so,
    the tokens of a line coming in order and without overlap, it never lies
    inside a string literal that the tokenizer found on the line read
    alone.  Nothing is said of a literal that spans several lines. *)
Theorem split_code_and_comment_at_first_comment
    (generate_tokens : string -> token_stream) (line : string) :
  (forall generate_tokens' : string -> token_stream,
     tokens_of (generate_tokens' line) = tokens_of (generate_tokens line) ->
     split_code_and_comment generate_tokens' line
     = split_code_and_comment generate_tokens line)
  /\ ((forall t, In t (tokens_of (generate_tokens line)) -> type t <> COMMENT)
      <-> split_code_and_comment generate_tokens line
          = (rstrip_newline line, EmptyString, (-1)%Z))
  /\ (forall before t after,
        tokens_of (generate_tokens line) = before ++ t :: after ->
        (forall t', In t' before -> type t' <> COMMENT) ->
        type t = COMMENT ->
        split_code_and_comment generate_tokens line
        = (rstrip_newline (Str.take (snd (start t)) line),
           rstrip_newline (Str.drop (snd (start t)) line),
           Z.of_nat (snd (start t))))
  /\ (tokens_in_order (generate_tokens line) = true ->
      forall col,
        snd (split_code_and_comment generate_tokens line) = Z.of_nat col ->
        exists t,
          In t (tokens_of (generate_tokens line))
          /\ type t = COMMENT
          /\ snd (start t) = col
          /\ in_string_literal (generate_tokens line) (start t) = false).
Proof.
  unfold split_code_and_comment. repeat apply conj.
  - intros generate_tokens' E.
    rewrite (first_comment_col_tokens _ _ E). reflexivity.
  - intros H. now rewrite (first_comment_col_None _ H).
  - intros E t Hin Hty.
    destruct (first_comment_col_found _ t Hin Hty) as [col F].
    rewrite F in E. injection E as _ _ E. lia.
  - intros before t after E Hbefore Hty.
    rewrite (first_comment_col_first before _ t after E Hbefore Hty).
    reflexivity.
  - intros Hord col E.
    destruct (first_comment_col (generate_tokens line)) as [c | ] eqn:F;
      simpl in E; [ | lia].
    apply Nat2Z.inj in E. subst c.
    apply first_comment_col_Some in F as (t & Hin & Hty & Hcol).
    exists t. repeat split; try assumption.
    destruct (in_string_literal (generate_tokens line) (start t)) eqn:I;
      [exfalso | reflexivity].
    unfold in_string_literal in I.
    apply existsb_exists in I as (s & Hs & I).
    apply Bool.andb_true_iff in I as [I I2].
    apply Bool.andb_true_iff in I as [_ I1].
    exact (in_order_apart _ _ _ _ Hord Hs Hin I1 I2).
Qed.

Lemma split_code_and_comment_at_first_comment_witness :
  split_code_and_comment example_tokenizer line_open_call
  = ("foo(  ", "# c", 6%Z)
  /\ split_code_and_comment example_tokenizer line_string_only
     = (line_string_only, EmptyString, (-1)%Z)
  /\ exists t,
       In t (tokens_of (example_tokenizer line_string_and_comment))
       /\ type t = COMMENT
       /\ snd (start t) = 9
       /\ in_string_literal (example_tokenizer line_string_and_comment)
            (start t) = false.
Proof.
  split; [ | split].
  - apply (proj1 (proj2 (proj2
      (split_code_and_comment_at_first_comment example_tokenizer line_open_call)))
      [tok NAME 0 3; tok OP 3 4] (tok COMMENT 6 9) []).
    + reflexivity.
    + intros t' [<- | [<- | []]]; discriminate.
    + reflexivity.
  - apply (proj1 (proj1 (proj2
      (split_code_and_comment_at_first_comment example_tokenizer line_string_only)))).
    intros t Hin Hty. simpl in Hin.
    repeat (destruct Hin as [<- | Hin]; [discriminate Hty | ]).
    destruct Hin.
  - apply (proj2 (proj2 (proj2
      (split_code_and_comment_at_first_comment example_tokenizer
         line_string_and_comment)))).
    + reflexivity.
    + reflexivity.
Defined.

(** C5 as stated fails twice.  The line [foo(  # c] cannot be tokenized in
    isolation (the call is left open), yet the COMMENT token is handed out
    before the error and the line is split at column 6, it is not returned
    whole.  In the file of the three lines [s = '''], [x = 1 # ToDo: later]
    and ['''] the [#] of the second line is part of the content of a string
    literal; that line read alone is tokenized without error, with a
    COMMENT token at column 6, so it is classified as having a comment and
    S004 and S005 are reported on it. *)
Lemma split_code_and_comment_counterexample :
  (ends_in_error (example_tokenizer line_open_call) = true
   /\ split_code_and_comment example_tokenizer line_open_call
      = ("foo(  ", "# c", 6%Z)
   /\ split_code_and_comment example_tokenizer line_open_call
      <> (rstrip_newline line_open_call, EmptyString, (-1)%Z))
  /\ (lines_of string_file
      = [ (line_string_opens ++ newline)%string;
          (line_in_string ++ newline)%string;
          (line_string_closes ++ newline)%string ]
      /\ String.get 6 line_in_string = Some hash
      /\ in_string_literal (string_tokenizer string_file) (2, 6) = true
      /\ ends_in_error (string_tokenizer (line_in_string ++ newline)) = false
      /\ split_code_and_comment string_tokenizer (line_in_string ++ newline)
         = ("x = 1 ", "# ToDo: later", 6%Z)
      /\ scan_lines string_tokenizer "s.py" (lines_of string_file) 1 0
         = [ mkReportItem "s.py" 2 "S004"
               "At least two spaces required before inline comments";
             mkReportItem "s.py" 2 "S005" "TODO found" ]).
Proof.
  repeat split; try (vm_compute; reflexivity). discriminate.
Qed.

(** ** Syntax trees: the worklist loops end *)

Lemma sizes_app a b : sizes (a ++ b) = sizes a + sizes b.
Proof. induction a as [ | n a IH]; simpl; [ | rewrite IH]; lia. Qed.

Lemma sizes_opt_node o : sizes (opt_node o) = osize o.
Proof. destruct o; simpl; lia. Qed.

Lemma sizes_present l : sizes (present l) = osizes l.
Proof.
  unfold present.
  induction l as [ | [n | ] l IH]; simpl; [reflexivity | | exact IH].
  rewrite IH. reflexivity.
Qed.

(** A node counts for one more than its children. *)
Lemma size_unfold node : size node = S (sizes (iter_child_nodes node)).
Proof.
  destruct node; cbn [iter_child_nodes];
    rewrite ?sizes_app; cbn [sizes];
    rewrite ?sizes_app, ?sizes_opt_node, ?sizes_present;
    simpl; fold sizes; fold osizes; unfold osize; lia.
Qed.

Lemma sizes_push_children children : forall stack,
  sizes (push_children stack children) <= sizes stack + sizes children.
Proof.
  unfold push_children.
  induction children as [ | child children IH]; intros stack; simpl.
  - lia.
  - destruct (is_skip_type child).
    + specialize (IH stack). lia.
    + specialize (IH (child :: stack)). simpl in IH. lia.
Qed.

Lemma walk_stack_nil fuel : walk_stack fuel [] = [].
Proof. destruct fuel; reflexivity. Qed.

Lemma walk_queue_nil fuel : walk_queue fuel [] = [].
Proof. destruct fuel; reflexivity. Qed.

(** The stack is empty before the fuel is: more fuel changes nothing. *)
Lemma walk_stack_fuel fuel : forall stack extra,
  sizes stack <= fuel ->
  walk_stack (fuel + extra) stack = walk_stack fuel stack.
Proof.
  induction fuel as [ | fuel IH]; intros stack extra Hle.
  - destruct stack as [ | node stack].
    + now rewrite !walk_stack_nil.
    + simpl in Hle. rewrite size_unfold in Hle. lia.
  - destruct stack as [ | node stack]; [reflexivity | ].
    simpl. f_equal. apply IH.
    simpl in Hle. rewrite size_unfold in Hle.
    pose proof (sizes_push_children (iter_child_nodes node) stack). lia.
Qed.

Lemma walk_queue_fuel fuel : forall todo extra,
  sizes todo <= fuel ->
  walk_queue (fuel + extra) todo = walk_queue fuel todo.
Proof.
  induction fuel as [ | fuel IH]; intros todo extra Hle.
  - destruct todo as [ | node todo].
    + now rewrite !walk_queue_nil.
    + simpl in Hle. rewrite size_unfold in Hle. lia.
  - destruct todo as [ | node todo]; [reflexivity | ].
    simpl. f_equal. apply IH.
    simpl in Hle. rewrite size_unfold in Hle. rewrite sizes_app. lia.
Qed.

(** [ast.walk] hands out every node of the tree once. *)
Lemma walk_queue_length fuel : forall todo,
  sizes todo <= fuel -> length (walk_queue fuel todo) = sizes todo.
Proof.
  induction fuel as [ | fuel IH]; intros todo Hle;
    destruct todo as [ | node todo]; try reflexivity.
  - simpl in Hle. rewrite size_unfold in Hle. lia.
  - simpl in *. rewrite size_unfold in *. rewrite IH; rewrite sizes_app; lia.
Qed.

Lemma ast_walk_length tree : length (ast_walk tree) = size tree.
Proof.
  unfold ast_walk. rewrite walk_queue_length; simpl; lia.
Qed.

(** ** The scope boundary of the local-naming walk *)

Lemma in_push_children children n : forall stack,
  In n (push_children stack children) ->
  In n stack \/ (In n children /\ is_skip_type n = false).
Proof.
  unfold push_children.
  induction children as [ | child children IH]; intros stack H; simpl in *.
  - auto.
  - destruct (is_skip_type child) eqn:Eskip.
    + apply IH in H. tauto.
    + apply IH in H as [[<- | H] | H]; tauto.
Qed.

(** The walk only skips what it pushes: a node it yields is one of the
    statements it was started with, or is not of a skipped class. *)
Lemma walk_stack_yields fuel n : forall stack,
  In n (walk_stack fuel stack) -> In n stack \/ is_skip_type n = false.
Proof.
  induction fuel as [ | fuel IH]; intros stack H; [destruct H | ].
  destruct stack as [ | node stack]; [destruct H | ].
  simpl in H. destruct H as [<- | H]; [left; left; reflexivity | ].
  apply IH in H as [H | H]; [ | auto].
  apply in_push_children in H as [H | [_ H]]; [left; right; exact H | auto].
Qed.

Lemma in_push_children_stack children n : forall stack,
  In n stack -> In n (push_children stack children).
Proof.
  unfold push_children.
  induction children as [ | child children IH]; intros stack H; simpl.
  - exact H.
  - destruct (is_skip_type child); apply IH; [exact H | right; exact H].
Qed.

Lemma in_push_children_child children c : forall stack,
  In c children -> is_skip_type c = false -> In c (push_children stack children).
Proof.
  induction children as [ | child children IH]; intros stack H Hskip; [destruct H | ].
  destruct H as [-> | H].
  - unfold push_children. simpl. rewrite Hskip.
    apply (in_push_children_stack children c (c :: stack)). left; reflexivity.
  - unfold push_children. simpl.
    destruct (is_skip_type child); apply IH; assumption.
Qed.

(** Whatever is on the stack is handed out ... *)
Lemma walk_stack_complete fuel : forall stack n,
  sizes stack <= fuel -> In n stack -> In n (walk_stack fuel stack).
Proof.
  induction fuel as [ | fuel IH]; intros stack n Hle Hin.
  - destruct stack as [ | node stack]; [destruct Hin | ].
    simpl in Hle. rewrite size_unfold in Hle. lia.
  - destruct stack as [ | node stack]; [destruct Hin | ].
    simpl. destruct Hin as [-> | Hin]; [left; reflexivity | right].
    simpl in Hle. rewrite size_unfold in Hle.
    pose proof (sizes_push_children (iter_child_nodes node) stack).
    apply IH; [lia | apply in_push_children_stack; exact Hin].
Qed.

(** ... and so is every child, not of a skipped class, of what is handed
    out. *)
Lemma walk_stack_children fuel : forall stack node c,
  sizes stack <= fuel -> In node (walk_stack fuel stack) ->
  In c (iter_child_nodes node) -> is_skip_type c = false ->
  In c (walk_stack fuel stack).
Proof.
  induction fuel as [ | fuel IH]; intros stack node c Hle Hnode Hc Hskip;
    [destruct Hnode | ].
  destruct stack as [ | top stack]; [destruct Hnode | ].
  simpl in Hle. rewrite size_unfold in Hle.
  pose proof (sizes_push_children (iter_child_nodes top) stack).
  simpl in *. right. destruct Hnode as [-> | Hnode].
  - apply walk_stack_complete; [lia | ].
    apply in_push_children_child; assumption.
  - apply (IH _ node); try assumption. lia.
Qed.

Lemma format_S011 name :
  format (MESSAGES_at "S011") [("name", name)]
  = ("Variable '" ++ name ++ "' in function should use snake_case")%string.
Proof. reflexivity. Qed.

Lemma format_S010 name :
  format (MESSAGES_at "S010") [("name", name)]
  = ("Argument name '" ++ name ++ "' should use snake_case")%string.
Proof. reflexivity. Qed.

(** The leak in general: a name assigned by a statement directly below any
    statement of the body is reported for the definition, also when that
    statement of the body is itself a definition or a class. *)
Lemma direct_statement_leaks file_path async lineno name args body
    decorator_list returns type_params inner l bad ctx value :
  In inner body ->
  In (Assign l [Name bad ctx] value) (iter_child_nodes inner) ->
  is_snake_case bad = false ->
  In (S011_item file_path l bad)
     (analyze_node file_path
        (definition async lineno name args body decorator_list returns
           type_params)).
Proof.
  intros Hinner Hassign Hbad.
  assert (H : In (S011_item file_path l bad) (S011_items file_path body)).
  { unfold S011_items. apply in_flat_map.
    exists (Assign l [Name bad ctx] value). split.
    - unfold walk_without_nested_scopes.
      apply (walk_stack_children _ _ inner); try reflexivity; try assumption.
      apply walk_stack_complete; [reflexivity | exact Hinner].
    - unfold S011_items_of, not_snake. simpl. rewrite Hbad. simpl.
      rewrite format_S011. left; reflexivity. }
  destruct async; simpl; rewrite !in_app_iff; auto.
Qed.

(** C1, at the input where the code departs from it: in
    [def outer(): / def inner(): / BadName = 1] the visit of [outer] alone
    reports the name bound inside [inner], and the whole file reports it
    twice, once for each definition; a class placed directly in the body
    leaks in the same way; a nested definition that sits below another
    statement of the body is skipped, as the walk intends. *)
Theorem nested_definition_reported_from_outer :
  analyze_node "f.py" outer_def = [S011_item "f.py" 3 "BadName"]
  /\ analyze_tree "f.py" nested_def_tree
     = [S011_item "f.py" 3 "BadName"; S011_item "f.py" 3 "BadName"]
  /\ analyze_node "f.py" outer_with_class = [S011_item "f.py" 3 "BadName"]
  /\ analyze_node "f.py" outer_with_guarded_def = [].
Proof. repeat split; reflexivity. Qed.

(** ** Assignment targets *)

Lemma list_all_Forall {A : Type} (P : A -> Prop) (l : list A) :
  list_all A P l -> Forall P l.
Proof. induction 1; constructor; assumption. Qed.

Lemma in_extract_elts elts n :
  Forall (fun e => forall n, In n (extract_assigned_names e) <-> target_name e n)
    elts ->
  In n (flat_map extract_assigned_names elts)
  <-> exists e, In e elts /\ target_name e n.
Proof.
  intros H. rewrite Forall_forall in H. rewrite in_flat_map. split.
  - intros (e & He & Hn). exists e. split; [exact He | ]. apply H; assumption.
  - intros (e & He & Hn). exists e. split; [exact He | ]. apply H; assumption.
Qed.

Lemma extract_assigned_names_spec target :
  forall n, In n (extract_assigned_names target) <-> target_name target n.
Proof.
  induction target; intros n; simpl;
    try solve [split; [intros [] | inversion 1]].
  - (* Name *) split.
    + intros [<- | []]. constructor.
    + inversion 1; subst. left; reflexivity.
  - (* List *) rewrite in_extract_elts by (apply list_all_Forall; assumption).
    split.
    + intros (e & He & Hn). econstructor; eassumption.
    + inversion 1; subst. eauto.
  - (* Tuple *) rewrite in_extract_elts by (apply list_all_Forall; assumption).
    split.
    + intros (e & He & Hn). econstructor; eassumption.
    + inversion 1; subst. eauto.
Qed.

Lemma extract_skips_starred elts :
  flat_map extract_assigned_names elts
  = flat_map extract_assigned_names (filter (fun e => negb (is_starred e)) elts).
Proof.
  induction elts as [ | e elts IH]; simpl; [reflexivity | ].
  destruct e; simpl; rewrite <- IH; reflexivity.
Qed.

Lemma extract_nothing targets :
  forallb is_attribute_subscript_starred targets = true ->
  flat_map extract_assigned_names targets = [].
Proof.
  induction targets as [ | t targets IH]; simpl; [reflexivity | ].
  rewrite andb_true_iff. intros [Ht Hts]. rewrite (IH Hts).
  destruct t; try discriminate; reflexivity.
Qed.

(** C10: the names taken from an assignment target are those of plain name
    targets and of the elements of tuple and list targets, at any depth; an
    attribute, a subscript or a starred target gives no name, a starred
    element inside a tuple or list target gives none either, so an
    assignment with only such targets never produces an S011 finding,
    whatever the names involved, as in [*BadName, x = value]. *)
Theorem extract_assigned_names_targets :
  (forall target n,
     In n (extract_assigned_names target) <-> target_name target n)
  /\ (forall target,
        is_attribute_subscript_starred target = true ->
        extract_assigned_names target = [])
  /\ (forall elts ctx,
        extract_assigned_names (Tuple elts ctx)
        = flat_map extract_assigned_names
            (filter (fun e => negb (is_starred e)) elts)
        /\ extract_assigned_names (List_ elts ctx)
           = flat_map extract_assigned_names
               (filter (fun e => negb (is_starred e)) elts))
  /\ (forall file_path inner lineno targets,
        assignment_targets inner = Some (lineno, targets) ->
        forallb is_attribute_subscript_starred targets = true ->
        S011_items_of file_path inner = [])
  /\ (forall file_path, S011_items_of file_path starred_assignment = []).
Proof.
  split; [exact extract_assigned_names_spec | ].
  split; [intros target; destruct target; try discriminate; reflexivity | ].
  split; [intros elts ctx; split; apply extract_skips_starred | ].
  split; [ | reflexivity].
  intros file_path inner lineno targets Hinner Htargets.
  unfold S011_items_of. rewrite Hinner, (extract_nothing _ Htargets). reflexivity.
Qed.

Lemma extract_assigned_names_targets_witness :
  S011_items_of "f.py"
    (Assign 7 [Attribute (Name "self" Load) "BadName" Store;
               Subscript (Name "table" Load) (Name "BadKey" Load) Store]
       Constant) = []
  /\ extract_assigned_names (Starred (Name "BadName" Store) Store) = [].
Proof.
  split.
  - apply (proj1 (proj2 (proj2 (proj2 extract_assigned_names_targets)))
             "f.py" _ 7
             [Attribute (Name "self" Load) "BadName" Store;
              Subscript (Name "table" Load) (Name "BadKey" Load) Store]);
      reflexivity.
  - apply (proj1 (proj2 extract_assigned_names_targets)). reflexivity.
Defined.

(** ** Mutable default values *)

Lemma is_mutable_literal_spec d :
  is_mutable_literal d = true <-> mutable_literal d.
Proof.
  split.
  - destruct d; try discriminate; constructor.
  - destruct 1; reflexivity.
Qed.

Lemma existsb_mutable_default defaults kw_defaults :
  existsb is_mutable_default (map Some defaults ++ kw_defaults) = true
  <-> has_mutable_literal_default defaults kw_defaults.
Proof.
  unfold has_mutable_literal_default. rewrite existsb_exists. split.
  - intros ([d | ] & Hin & Hd); [ | discriminate].
    exists d. rewrite <- is_mutable_literal_spec. split; [ | exact Hd].
    apply in_app_iff in Hin as [Hin | Hin]; [left | right; exact Hin].
    apply in_map_iff in Hin as (d' & [= ->] & Hin). exact Hin.
  - intros (d & Hin & Hd). exists (Some d).
    rewrite in_app_iff. split; [ | apply is_mutable_literal_spec; exact Hd].
    destruct Hin as [Hin | Hin]; [left; apply in_map; exact Hin | right; exact Hin].
Qed.

Lemma filter_other_code c c' (l : list ReportItem) :
  String.eqb c' c = false ->
  Forall (fun item => code item = c') l ->
  filter (has_code c) l = [].
Proof.
  intros Hne. induction 1 as [ | item l Hc _ IH]; simpl; [reflexivity | ].
  unfold has_code at 1. rewrite Hc, Hne. exact IH.
Qed.

Lemma S010_items_code file_path lineno args :
  Forall (fun item => code item = "S010") (S010_items file_path lineno args).
Proof. unfold S010_items. apply Forall_map, Forall_forall. reflexivity. Qed.

Lemma S011_items_code file_path body :
  Forall (fun item => code item = "S011") (S011_items file_path body).
Proof.
  unfold S011_items. apply Forall_flat_map, Forall_forall. intros inner _.
  unfold S011_items_of. destruct (assignment_targets inner) as [[lineno targets] | ].
  - apply Forall_map, Forall_forall. reflexivity.
  - constructor.
Qed.

Lemma S012_of_definition async file_path lineno name args body decorator_list
    returns type_params :
  filter (has_code "S012")
    (analyze_node file_path
       (definition async lineno name args body decorator_list returns type_params))
  = S012_items file_path lineno args.
Proof.
  destruct async; simpl; rewrite !filter_app;
    rewrite (filter_other_code "S012" "S010" _ eq_refl (S010_items_code _ _ _)),
            (filter_other_code "S012" "S011" _ eq_refl (S011_items_code _ _));
    rewrite app_nil_r; simpl; unfold S012_items;
    destruct (existsb _ _); reflexivity.
Qed.

(** C4: a definition, asynchronous or not, with one or more positional or
    keyword-only default values that are a literal list, mapping or set
    gets exactly one S012 finding, at the line of the definition; a
    definition with no such default gets none; so a definition with two
    mutable literal defaults gets one finding, not two. *)
Theorem one_S012_per_definition
    (async : bool) (file_path : string) (lineno : nat) (name : string)
    (posonlyargs args : list AST) (vararg : option AST) (kwonlyargs : list AST)
    (kw_defaults : list (option AST)) (kwarg : option AST) (defaults : list AST)
    (body decorator_list : list AST) (returns : option AST)
    (type_params : list AST) :
  let node :=
    definition async lineno name
      (arguments posonlyargs args vararg kwonlyargs kw_defaults kwarg defaults)
      body decorator_list returns type_params in
  (has_mutable_literal_default defaults kw_defaults ->
   filter (has_code "S012") (analyze_node file_path node)
   = [S012_item file_path lineno])
  /\ (~ has_mutable_literal_default defaults kw_defaults ->
      filter (has_code "S012") (analyze_node file_path node) = [])
  /\ filter (has_code "S012") (analyze_node file_path two_mutable_defaults)
     = [S012_item file_path 1].
Proof.
  intros node. unfold node. rewrite S012_of_definition.
  unfold S012_items, defaults_of.
  pose proof (existsb_mutable_default defaults kw_defaults) as Hex.
  destruct (existsb is_mutable_default (map Some defaults ++ kw_defaults)).
  - split; [reflexivity | ]. split; [ | reflexivity].
    intros Hno. exfalso. apply Hno, Hex. reflexivity.
  - split; [ | split; reflexivity].
    intros Hyes. apply Hex in Hyes. discriminate.
Qed.

Lemma one_S012_per_definition_witness :
  filter (has_code "S012")
    (analyze_node "f.py"
       (AsyncFunctionDef 4 "fetch"
          (arguments [] [arg "url" None] None [arg "seen" None]
             [Some (Set_ [])] None [])
          [Pass] [] None []))
  = [S012_item "f.py" 4]
  /\ filter (has_code "S012") (analyze_node "f.py" inner_def) = [].
Proof.
  split.
  - apply (proj1 (one_S012_per_definition true "f.py" 4 "fetch"
                    [] [arg "url" None] None [arg "seen" None]
                    [Some (Set_ [])] None [] [Pass] [] None [])).
    exists (Set_ []). split; [right; left; reflexivity | constructor].
  - apply (proj1 (proj2 (one_S012_per_definition false "f.py" 2 "inner"
                    [] [] None [] [] None [] [assign_BadName 3] [] None []))).
    intros (d & [[] | []] & _).
Defined.

(** ** Files that cannot be read *)

Section FileFacts.
Variable generate_tokens : string -> token_stream.
Variable ast_parse : string -> result AST.
Variable open_ : string -> file.

Lemma analyze_file_unreadable file_path :
  open_ file_path = Unreadable ->
  analyze_file generate_tokens ast_parse open_ file_path = Raise OSError.
Proof. intros H. unfold analyze_file, scan_file. rewrite H. reflexivity. Qed.

Lemma analyze_file_undecodable file_path decoded :
  open_ file_path = Undecodable decoded ->
  analyze_file generate_tokens ast_parse open_ file_path
  = Raise UnicodeDecodeError.
Proof. intros H. unfold analyze_file, scan_file. rewrite H. reflexivity. Qed.

(** The guard of the structural scanner does tolerate such files ... *)
Lemma analyze_ast_issues_not_text file_path :
  (forall source, open_ file_path <> Text source) ->
  analyze_ast_issues ast_parse open_ file_path = Return [].
Proof.
  intros H. unfold analyze_ast_issues.
  destruct (open_ file_path) as [ | decoded | source]; try reflexivity.
  exfalso. exact (H source eq_refl).
Qed.

(** ... and one failing file ends the analysis of all of them. *)
Lemma analyze_files_raise paths1 file_path paths2 e items :
  analyze_files generate_tokens ast_parse open_ paths1 = Return items ->
  analyze_file generate_tokens ast_parse open_ file_path = Raise e ->
  analyze_files generate_tokens ast_parse open_ (paths1 ++ file_path :: paths2)
  = Raise e.
Proof.
  revert items. induction paths1 as [ | p paths1 IH]; intros items H1 H; simpl.
  - rewrite H. reflexivity.
  - simpl in H1.
    destruct (analyze_file generate_tokens ast_parse open_ p); [ | discriminate].
    simpl in *.
    destruct (analyze_files generate_tokens ast_parse open_ paths1) eqn:E;
      [ | discriminate].
    rewrite (IH _ eq_refl H). reflexivity.
Qed.
End FileFacts.

(** C2, at the input where the code departs from it: the directory [mixed]
    holds [a.py], a text file with one finding, and [bad.py], whose bytes
    are not UTF-8.  The line scanner opens [bad.py] outside any [try]:
    analysing it raises [UnicodeDecodeError], analysing a file that cannot
    be opened raises [OSError], and the run over the directory ends with
    the exception, the finding of [a.py] unprinted; the structural scanner
    alone would have answered with no finding. *)
Theorem unreadable_file_aborts_run :
  example_analyze_file "mixed/bad.py" = Raise UnicodeDecodeError
  /\ example_analyze_file "mixed/locked.py" = Raise OSError
  /\ example_analyze_file "mixed/a.py"
     = Return [mkReportItem "mixed/a.py" 1 "S003" "Unnecessary semicolon"]
  /\ example_main ["analyzer"; "mixed"] = Raise UnicodeDecodeError
  /\ analyze_ast_issues example_parse example_open "mixed/bad.py" = Return [].
Proof. repeat split; vm_compute; reflexivity. Qed.

(** ** A definition header alone in a file *)

(** C3 fails on the code: a file whose whole content is
    [def myFunction(ArgOne):] is not a Python program, [ast.parse] raises
    [SyntaxError], and the only finding is S009; there is no S010. *)
Lemma header_only_file_counterexample :
  example_parse source_header = Raise SyntaxError
  /\ example_analyze_file "header.py"
     = Return [S009_item "header.py" 1 "myFunction"]
  /\ (forall items,
        example_analyze_file "header.py" = Return items ->
        ~ In (S010_item "header.py" 1 "ArgOne") items).
Proof.
  split; [reflexivity | ]. split; [vm_compute; reflexivity | ].
  assert (E : example_analyze_file "header.py"
              = Return [S009_item "header.py" 1 "myFunction"])
    by (vm_compute; reflexivity).
  rewrite E. intros items [= <-] [H | []]. discriminate H.
Qed.

(** C3, as the code has it: when the file holds the single line
    [def myFunction(ArgOne):], which has no comment and does not parse, the
    findings are exactly S009 at line 1; when the header is followed by a
    body, here an indented [pass], and the file parses, the findings are
    exactly S009 and S010, both at line 1, and no other code. *)
Theorem header_file_findings
    (generate_tokens : string -> token_stream)
    (ast_parse : string -> result AST) (open_ : string -> file)
    (file_path : string) :
  (open_ file_path = Text source_header ->
   first_comment_col (generate_tokens line_header) = None ->
   ast_parse source_header = Raise SyntaxError ->
   analyze_file generate_tokens ast_parse open_ file_path
   = Return [S009_item file_path 1 "myFunction"])
  /\ (open_ file_path = Text source_header_with_body ->
      first_comment_col (generate_tokens (line_header ++ newline)%string) = None ->
      first_comment_col (generate_tokens (line_pass ++ newline)%string) = None ->
      ast_parse source_header_with_body = Return header_with_body_tree ->
      analyze_file generate_tokens ast_parse open_ file_path
      = Return [S009_item file_path 1 "myFunction";
                S010_item file_path 1 "ArgOne"]).
Proof.
  split.
  - intros Hopen Htok Hparse.
    unfold analyze_file, scan_file, analyze_ast_issues. rewrite Hopen.
    cbn [read bind]. rewrite Hparse.
    change (lines_of source_header) with [line_header].
    cbn [scan_lines]. unfold find_issues_for_line, split_code_and_comment.
    rewrite Htok. vm_compute. reflexivity.
  - intros Hopen Htok1 Htok2 Hparse.
    unfold analyze_file, scan_file, analyze_ast_issues. rewrite Hopen.
    cbn [read bind]. rewrite Hparse.
    change (lines_of source_header_with_body)
      with [(line_header ++ newline)%string; (line_pass ++ newline)%string].
    cbn [scan_lines]. unfold find_issues_for_line, split_code_and_comment.
    rewrite Htok1.
    change (next_blank_lines 0 (line_header ++ newline)%string) with 0.
    cbv beta iota. rewrite Htok2. vm_compute. reflexivity.
Qed.

Lemma header_file_findings_witness :
  example_analyze_file "header.py"
  = Return [S009_item "header.py" 1 "myFunction"]
  /\ example_analyze_file "clean/b.py"
     = Return [S009_item "clean/b.py" 1 "myFunction";
               S010_item "clean/b.py" 1 "ArgOne"].
Proof.
  split.
  - apply (proj1 (header_file_findings example_tokenizer example_parse
                    example_open "header.py")); vm_compute; reflexivity.
  - apply (proj2 (header_file_findings example_tokenizer example_parse
                    example_open "clean/b.py")); vm_compute; reflexivity.
Defined.

(** ** The report *)

Lemma Str_compare_Eq a b : Str.compare a b = Eq <-> a = b.
Proof.
  split; [apply cmp_eq | intros ->; apply (cmp_refl Str.compare)].
Qed.

Lemma ReportItem_lt_lexicographic a b :
  ReportItem_lt a b <-> lexicographic_lt a b.
Proof.
  unfold ReportItem_lt, ReportItem_compare, lexicographic_lt, Str.lt, compare_then.
  destruct (Str.compare (file_path a) (file_path b)) eqn:Ef.
  - apply Str_compare_Eq in Ef.
    destruct (line_number a ?= line_number b) eqn:El.
    + apply Nat.compare_eq_iff in El.
      destruct (Str.compare (code a) (code b)) eqn:Ec.
      * apply Str_compare_Eq in Ec. split; [tauto | ].
        intros [H | (_ & [H | (_ & [H | (_ & H)])])];
          try discriminate; try lia; exact H.
      * tauto.
      * split; [discriminate | ].
        intros [H | (_ & [H | (_ & [H | (H & _)])])];
          try discriminate; try lia.
        apply Str_compare_Eq in H. congruence.
    + apply Nat.compare_lt_iff in El. tauto.
    + apply Nat.compare_gt_iff in El. split; [discriminate | ].
      intros [H | (_ & [H | (H & _)])]; try discriminate; lia.
  - tauto.
  - split; [discriminate | ].
    intros [H | (H & _)]; [discriminate | ].
    apply Str_compare_Eq in H. congruence.
Qed.




Section ReportFacts.
Variable generate_tokens : string -> token_stream.
Variable ast_parse : string -> result AST.
Variable open_ : string -> file.

End ReportFacts.



(* ================================================================= *)
(** * Part III: further properties of the analyzer *)
(* ================================================================= *)

(** ** Character classes and strings *)

Lemma lower_not_underscore c :
  Str.is_lower c = true -> Str.is_underscore c = false.
Proof.
  unfold Str.is_lower, Str.in_range, Str.is_underscore.
  rewrite andb_true_iff, !Nat.leb_le, Nat.eqb_neq. lia.
Qed.

Lemma lower_not_upper c : Str.is_lower c = true -> Str.is_upper c = false.
Proof.
  unfold Str.is_lower, Str.is_upper, Str.in_range.
  rewrite andb_true_iff, andb_false_iff, !Nat.leb_le, !Nat.leb_gt. lia.
Qed.

Lemma upper_not_underscore c :
  Str.is_upper c = true -> Str.is_underscore c = false.
Proof.
  unfold Str.is_upper, Str.in_range, Str.is_underscore.
  rewrite andb_true_iff, !Nat.leb_le, Nat.eqb_neq. lia.
Qed.

Lemma underscore_snake_char c :
  Str.is_underscore c = true -> is_snake_char c = true.
Proof. unfold is_snake_char. intros ->. now rewrite !orb_true_r. Qed.

Lemma lower_snake_char c : Str.is_lower c = true -> is_snake_char c = true.
Proof. unfold is_snake_char. intros ->. reflexivity. Qed.

Lemma bool_eq_of_iff (a b : bool) : (a = true <-> b = true) -> a = b.
Proof. destruct a, b; intros [H1 H2]; auto; symmetry; auto. Qed.

(** The snake pattern on lists of characters: underscores, a lowercase
    letter, then characters of [[a-z0-9_]]. *)
Lemma snake_list_spec (w : list ascii) :
  Re.accepts RE_SNAKE w = true
  <-> exists u c m,
        w = u ++ c :: m
        /\ Forall (fun x => Str.is_underscore x = true) u
        /\ Str.is_lower c = true
        /\ Forall (fun x => is_snake_char x = true) m.
Proof.
  unfold RE_SNAKE. rewrite ReFacts.accepts_spec. split.
  - intros H.
    apply ReFacts.seq_inv in H as (u & x & -> & Hu & H).
    apply ReFacts.seq_inv in H as (k & y & -> & Hk & H).
    apply ReFacts.seq_inv in H as (m & t & -> & Hm & Ht).
    apply ReFacts.class_inv in Hk as (c & -> & Hc).
    apply ReFacts.star_class_spec in Hu, Hm, Ht.
    exists u, c, (m ++ t). repeat split; try assumption.
    apply Forall_app. split; [exact Hm | ].
    eapply Forall_impl; [ | exact Ht]. apply underscore_snake_char.
  - intros (u & c & m & -> & Hu & Hc & Hm).
    apply ReFacts.seq_inv. exists u, (c :: m).
    split; [reflexivity | split; [apply ReFacts.star_class_spec; exact Hu | ]].
    apply ReFacts.seq_inv. exists [c], m.
    split; [reflexivity | split; [apply ReFacts.class_inv; eauto | ]].
    apply ReFacts.seq_inv. exists m, [].
    split; [now rewrite app_nil_r | ].
    split; [apply ReFacts.star_class_spec; exact Hm | constructor].
Qed.

(** ** Naming classifiers: what a snake-case name looks like *)

(** X1: a name that passes the snake check is made of lowercase letters,
    digits and underscores only, and is not made of underscores alone; so
    the empty name and the names [_], [__] fail it. *)
Theorem snake_case_characters (name : string) :
  is_snake_case name = true ->
  all_chars is_snake_char name /\ ~ all_chars Str.is_underscore name.
Proof.
  unfold is_snake_case, Re.fullmatch, all_chars. rewrite snake_list_spec.
  intros (u & c & m & -> & Hu & Hc & Hm). split.
  - apply Forall_app. split.
    + eapply Forall_impl; [ | exact Hu]. apply underscore_snake_char.
    + constructor; [apply lower_snake_char; exact Hc | exact Hm].
  - intros H. apply Forall_app in H as [_ H]. inversion H as [ | ? ? Hc' _].
    rewrite (lower_not_underscore c Hc) in Hc'. discriminate.
Qed.

Lemma snake_case_characters_witness :
  all_chars is_snake_char "__init__" /\ ~ all_chars Str.is_underscore "__init__".
Proof. apply (snake_case_characters "__init__"). reflexivity. Defined.

(** X2: no name passes both checks: a name accepted as upper camel case
    is rejected as snake case. *)
Theorem camel_case_is_not_snake_case (name : string) :
  is_camel_case name = true -> is_snake_case name = false.
Proof.
  intros Hcamel. apply is_camel_case_spec in Hcamel as (c & rest & -> & Hc & _).
  destruct (is_snake_case (String c rest)) eqn:E; [exfalso | reflexivity].
  unfold is_snake_case, Re.fullmatch in E. apply snake_list_spec in E.
  destruct E as (u & c' & m & E & Hu & Hc' & _). simpl in E.
  destruct u as [ | a u]; simpl in E; injection E as -> _.
  - rewrite (lower_not_upper _ Hc') in Hc. discriminate.
  - inversion Hu as [ | ? ? Ha _]. rewrite (upper_not_underscore _ Hc) in Ha.
    discriminate.
Qed.

Lemma camel_case_is_not_snake_case_witness : is_snake_case "FooBar2" = false.
Proof. apply (camel_case_is_not_snake_case "FooBar2"). reflexivity. Defined.

(** X3: the snake check does not look at underscores around a name: a
    name passes it exactly when the name with one more leading, or one more
    trailing, underscore does. *)
Theorem snake_case_underscore_wrapping (name : string) :
  is_snake_case ("_" ++ name)%string = is_snake_case name
  /\ is_snake_case (name ++ "_")%string = is_snake_case name.
Proof.
  assert (Hus : Str.is_underscore "_"%char = true) by reflexivity.
  unfold is_snake_case, Re.fullmatch. split; apply bool_eq_of_iff;
    rewrite ?list_ascii_of_string_app, !snake_list_spec; simpl.
  - split.
    + intros (u & c & m & E & Hu & Hc & Hm).
      destruct u as [ | a u]; simpl in E; injection E as E1 E2.
      * subst c. rewrite (lower_not_underscore _ Hc) in Hus. discriminate.
      * inversion Hu; subst. exists u, c, m. auto.
    + intros (u & c & m & -> & Hu & Hc & Hm).
      exists ("_"%char :: u), c, m. repeat split; auto.
  - split.
    + intros (u & c & m & E & Hu & Hc & Hm).
      destruct (exists_last (l := c :: m)) as (l' & x & El); [discriminate | ].
      destruct l' as [ | c0 m'].
      * simpl in El. injection El as Ec Em. subst m.
        apply app_inj_tail in E as [_ E]. rewrite <- E in Hc. discriminate Hc.
      * simpl in El. injection El as Ec Em. subst c0 m.
        change (u ++ c :: m' ++ [x]) with (u ++ (c :: m') ++ [x]) in E.
        rewrite app_assoc in E. apply app_inj_tail in E as [E _].
        exists u, c, m'. repeat split; auto.
        apply Forall_app in Hm as [Hm _]. exact Hm.
    + intros (u & c & m & -> & Hu & Hc & Hm).
      exists u, c, (m ++ ["_"%char]). repeat split; auto.
      * now rewrite <- app_assoc.
      * apply Forall_app. split; [exact Hm | ]. repeat constructor.
Qed.

(** ** The string methods *)

Module StrFacts.
Import Str.

Lemma all_chars_nil p : all_chars p EmptyString.
Proof. constructor. Qed.

Lemma all_chars_cons p c s :
  all_chars p (String c s) <-> p c = true /\ all_chars p s.
Proof.
  unfold all_chars. simpl. split.
  - inversion 1; auto.
  - intros [H1 H2]. constructor; assumption.
Qed.

Lemma all_chars_app p a b :
  all_chars p (a ++ b)%string <-> all_chars p a /\ all_chars p b.
Proof.
  unfold all_chars. rewrite list_ascii_of_string_app. apply Forall_app.
Qed.

Lemma all_chars_impl (p q : ascii -> bool) s :
  (forall c, p c = true -> q c = true) -> all_chars p s -> all_chars q s.
Proof. intros H. unfold all_chars. apply Forall_impl. exact H. Qed.

Lemma app_nil_r s : (s ++ "")%string = s.
Proof. induction s as [ | c s IH]; simpl; [ | rewrite IH]; reflexivity. Qed.

Lemma app_assoc a b c : (a ++ (b ++ c))%string = ((a ++ b) ++ c)%string.
Proof. induction a as [ | x a IH]; simpl; [ | rewrite IH]; reflexivity. Qed.

Lemma length_app a b :
  String.length (a ++ b) = String.length a + String.length b.
Proof. induction a as [ | x a IH]; simpl; [ | rewrite IH]; reflexivity. Qed.

Lemma take_app a b : take (String.length a) (a ++ b) = a.
Proof. induction a as [ | x a IH]; simpl; [destruct b | rewrite IH]; reflexivity. Qed.

Lemma drop_app a b : drop (String.length a) (a ++ b) = b.
Proof. induction a as [ | x a IH]; simpl; [destruct b | ]; auto. Qed.

Lemma take_drop n : forall s, (take n s ++ drop n s)%string = s.
Proof.
  induction n as [ | n IH]; intros [ | c s]; simpl; try reflexivity.
  now rewrite IH.
Qed.

Lemma lstrip_all p s : all_chars p s -> lstrip p s = EmptyString.
Proof.
  induction s as [ | c s IH]; simpl; [reflexivity | ].
  rewrite all_chars_cons. intros [-> H]. auto.
Qed.

Lemma lstrip_empty p s : lstrip p s = EmptyString -> all_chars p s.
Proof.
  induction s as [ | c s IH]; simpl; [intros; apply all_chars_nil | ].
  destruct (p c) eqn:E; [ | discriminate].
  intros H. apply all_chars_cons. auto.
Qed.

Lemma lstrip_stop p c s : p c = false -> lstrip p (String c s) = String c s.
Proof. simpl. intros ->. reflexivity. Qed.

Lemma lstrip_app p a b :
  all_chars p a -> lstrip p (a ++ b) = lstrip p b.
Proof.
  induction a as [ | c a IH]; simpl; [reflexivity | ].
  rewrite all_chars_cons. intros [-> H]. auto.
Qed.

Lemma rstrip_all p s : all_chars p s -> rstrip p s = EmptyString.
Proof.
  induction s as [ | c s IH]; simpl; [reflexivity | ].
  rewrite all_chars_cons. intros [Hc H]. rewrite (IH H), Hc. reflexivity.
Qed.

Lemma rstrip_empty p s : rstrip p s = EmptyString -> all_chars p s.
Proof.
  induction s as [ | c s IH]; simpl; [intros; apply all_chars_nil | ].
  destruct (rstrip p s) eqn:E; [ | discriminate].
  destruct (p c) eqn:Ec; [ | discriminate].
  intros _. apply all_chars_cons. auto.
Qed.

(** Stripping on the right takes off a run of stripped characters ... *)
Lemma rstrip_decompose p s :
  exists w, s = (rstrip p s ++ w)%string /\ all_chars p w.
Proof.
  induction s as [ | c s (w & Hs & Hw)]; simpl.
  - exists EmptyString. split; [reflexivity | apply all_chars_nil].
  - destruct (rstrip p s) as [ | x r] eqn:E.
    + destruct (p c) eqn:Ec.
      * exists (String c s). split; [reflexivity | ].
        apply all_chars_cons. split; [exact Ec | ].
        apply rstrip_empty. exact E.
      * exists w. split; [simpl; f_equal; exact Hs | exact Hw].
    + exists w. split; [simpl; f_equal; exact Hs | exact Hw].
Qed.

(** ... and nothing else. *)
Lemma rstrip_app_all p s w :
  all_chars p w -> rstrip p (s ++ w) = rstrip p s.
Proof.
  intros Hw. induction s as [ | c s IH]; simpl.
  - apply rstrip_all. exact Hw.
  - rewrite IH. reflexivity.
Qed.

Lemma rstrip_keeps_last p s c :
  p c = false ->
  rstrip p (s ++ String c EmptyString) = (s ++ String c EmptyString)%string.
Proof.
  intros Hc. induction s as [ | x s IH]; simpl.
  - rewrite Hc. reflexivity.
  - rewrite IH. destruct s; reflexivity.
Qed.

Lemma rstrip_rstrip (p q : ascii -> bool) s :
  (forall c, q c = true -> p c = true) -> rstrip p (rstrip q s) = rstrip p s.
Proof.
  intros Hqp. destruct (rstrip_decompose q s) as (w & Hs & Hw).
  rewrite Hs at 2. symmetry. apply rstrip_app_all.
  eapply all_chars_impl; [exact Hqp | exact Hw].
Qed.

Lemma newline_is_space c : is_newline c = true -> is_space c = true.
Proof.
  unfold is_newline, is_space, in_range. rewrite Nat.eqb_eq. intros ->.
  reflexivity.
Qed.

Lemma strip_empty s : strip s = EmptyString <-> all_chars is_space s.
Proof.
  unfold strip. split.
  - intros H. apply lstrip_empty in H.
    destruct (rstrip_decompose is_space s) as (w & Hs & Hw).
    rewrite Hs. apply all_chars_app. auto.
  - intros H. rewrite (rstrip_all _ _ H). reflexivity.
Qed.

Lemma is_empty_spec s : is_empty s = true <-> s = EmptyString.
Proof. destruct s; simpl; split; congruence. Qed.

Lemma endswith_spec s p :
  endswith s p = true <-> exists a, s = (a ++ p)%string.
Proof.
  unfold endswith. rewrite andb_true_iff, Nat.leb_le, String.eqb_eq. split.
  - intros [Hle Hdrop]. exists (take (String.length s - String.length p) s).
    transitivity (take (String.length s - String.length p) s
                  ++ drop (String.length s - String.length p) s)%string;
      [symmetry; apply take_drop | f_equal; exact Hdrop].
  - intros (a & ->). rewrite length_app. split; [lia | ].
    replace (String.length a + String.length p - String.length p)
      with (String.length a) by lia.
    apply drop_app.
Qed.

Lemma span_app p a c b :
  all_chars p a -> p c = false ->
  span p (a ++ String c b) = (a, String c b).
Proof.
  induction a as [ | x a IH]; simpl.
  - intros _ ->. reflexivity.
  - rewrite all_chars_cons. intros [-> H] Hc. now rewrite (IH H Hc).
Qed.

Lemma span_all p a : all_chars p a -> span p a = (a, EmptyString).
Proof.
  induction a as [ | x a IH]; simpl; [reflexivity | ].
  rewrite all_chars_cons. intros [-> H]. now rewrite (IH H).
Qed.

End StrFacts.

(** A line is blank exactly when all its characters are whitespace. *)
Lemma is_blank_spec line : is_blank line = true <-> all_chars Str.is_space line.
Proof.
  unfold is_blank. rewrite StrFacts.is_empty_spec. apply StrFacts.strip_empty.
Qed.

(** ** Which checks stand behind a reported code *)

Lemma in_keys_dict_get {V : Type} (d : dict V) k :
  In k (keys d) <-> dict_get d k <> None.
Proof.
  pose proof (dict_get_None d k) as H.
  destruct (dict_get d k) eqn:E.
  - split; [discriminate | ]. intros _.
    destruct (in_dec string_dec k (keys d)) as [Hin | Hout]; [exact Hin | ].
    apply H in Hout. discriminate.
  - split; [ | congruence]. intros Hin. exfalso.
    apply (proj1 H eq_refl). exact Hin.
Qed.

Lemma in_keys_issues found k :
  In k (keys (sorted_by_code (unique_by_code found))) <-> In k (keys found).
Proof.
  transitivity (In k (keys (unique_by_code found))).
  - split; apply Permutation_in; unfold keys; apply Permutation_map;
      [ | symmetry]; apply sorted_by_code_Permutation.
  - rewrite !in_keys_dict_get, dict_get_unique_by_code. reflexivity.
Qed.

Lemma in_keys_collect checks k :
  In k (keys (collect checks)) <-> In (Some k) checks.
Proof.
  unfold keys, collect. induction checks as [ | [c | ] checks IH]; simpl.
  - tauto.
  - rewrite IH. split; intros [H | H]; auto; left; congruence.
  - rewrite IH. split; [auto | intros [H | H]; [discriminate | auto]].
Qed.

(** A code is reported for a line exactly when one of the checks answers
    with it. *)
Lemma reports_spec generate_tokens raw_line blank_lines_before k :
  reports generate_tokens raw_line blank_lines_before k
  <-> In (Some k)
        [ check_s001 raw_line;
          check_s002 raw_line;
          check_s006 blank_lines_before raw_line;
          check_s003 (code_part_of generate_tokens raw_line);
          check_s004 (code_part_of generate_tokens raw_line)
            (comment_col_of generate_tokens raw_line);
          check_s005 (comment_part_of generate_tokens raw_line) ]
      \/ In k (keys (check_s007_s008_s009 raw_line)).
Proof.
  unfold reports, find_issues_for_line, code_part_of, comment_part_of,
    comment_col_of.
  destruct (split_code_and_comment generate_tokens raw_line)
    as [[code_part comment_part] comment_col].
  rewrite in_keys_issues. unfold keys at 1. rewrite map_app, in_app_iff.
  fold (keys (collect [check_s001 raw_line; check_s002 raw_line;
                       check_s006 blank_lines_before raw_line;
                       check_s003 code_part;
                       check_s004 code_part comment_col;
                       check_s005 comment_part])).
  rewrite in_keys_collect. reflexivity.
Qed.

(** Each of the simple checks answers with its own code only. *)
Ltac own_code H :=
  repeat match type of H with
         | _ \/ _ => destruct H as [H | H]
         end;
  try (exfalso; exact H);
  match type of H with
  | check_s001 ?r = Some _ =>
      destruct (check_s001_cases r) as [E | E]; rewrite E in H
  | check_s002 ?r = Some _ =>
      destruct (check_s002_cases r) as [E | E]; rewrite E in H
  | check_s003 ?r = Some _ =>
      destruct (check_s003_cases r) as [E | E]; rewrite E in H
  | check_s004 ?r ?c = Some _ =>
      destruct (check_s004_cases r c) as [E | E]; rewrite E in H
  | check_s005 ?r = Some _ =>
      destruct (check_s005_cases r) as [E | E]; rewrite E in H
  | check_s006 ?b ?r = Some _ =>
      rewrite check_s006_spec in H;
      destruct (negb (is_blank r) && (2 <? b))
  | In _ (keys (check_s007_s008_s009 ?r)) =>
      apply check_s007_s008_s009_keys in H; destruct H as [H | [H | H]]
  | _ => idtac
  end;
  try discriminate H.

Lemma reports_S001 generate_tokens raw_line blank_lines_before :
  reports generate_tokens raw_line blank_lines_before "S001"
  <-> check_s001 raw_line = Some "S001".
Proof.
  rewrite reports_spec. simpl. split.
  - intros H. own_code H; assumption.
  - auto.
Qed.

Lemma reports_S002 generate_tokens raw_line blank_lines_before :
  reports generate_tokens raw_line blank_lines_before "S002"
  <-> check_s002 raw_line = Some "S002".
Proof.
  rewrite reports_spec. simpl. split.
  - intros H. own_code H; assumption.
  - auto.
Qed.

Lemma reports_S003 generate_tokens raw_line blank_lines_before :
  reports generate_tokens raw_line blank_lines_before "S003"
  <-> check_s003 (code_part_of generate_tokens raw_line) = Some "S003".
Proof.
  rewrite reports_spec. simpl. split.
  - intros H. own_code H; assumption.
  - auto 6.
Qed.

Lemma reports_S004 generate_tokens raw_line blank_lines_before :
  reports generate_tokens raw_line blank_lines_before "S004"
  <-> check_s004 (code_part_of generate_tokens raw_line)
        (comment_col_of generate_tokens raw_line) = Some "S004".
Proof.
  rewrite reports_spec. simpl. split.
  - intros H. own_code H; assumption.
  - auto 7.
Qed.

Lemma reports_S005 generate_tokens raw_line blank_lines_before :
  reports generate_tokens raw_line blank_lines_before "S005"
  <-> check_s005 (comment_part_of generate_tokens raw_line) = Some "S005".
Proof.
  rewrite reports_spec. simpl. split.
  - intros H. own_code H; assumption.
  - auto 8.
Qed.

Lemma reports_S006 generate_tokens raw_line blank_lines_before :
  reports generate_tokens raw_line blank_lines_before "S006"
  <-> negb (is_blank raw_line) && (2 <? blank_lines_before) = true.
Proof.
  rewrite reports_spec, check_s006_spec. simpl. split.
  - intros H.
    destruct (negb (is_blank raw_line) && (2 <? blank_lines_before));
      [reflexivity | ].
    own_code H.
  - intros ->. auto.
Qed.

Lemma reports_header generate_tokens raw_line blank_lines_before k :
  k = "S007" \/ k = "S008" \/ k = "S009" ->
  reports generate_tokens raw_line blank_lines_before k
  <-> In k (keys (check_s007_s008_s009 raw_line)).
Proof.
  intros Hk. rewrite reports_spec. simpl. split; [ | auto].
  intros [H | H]; [exfalso | exact H].
  destruct Hk as [-> | [-> | ->]]; own_code H.
Qed.

Lemma no_newline_rstrip body : no_newline body -> rstrip_newline body = body.
Proof.
  unfold no_newline, rstrip_newline.
  induction body as [ | c s IH]; simpl; [reflexivity | ].
  rewrite StrFacts.all_chars_cons. intros [Hc Hs]. rewrite (IH Hs).
  destruct s; [ | reflexivity].
  apply negb_true_iff in Hc. rewrite Hc. reflexivity.
Qed.

Lemma rstrip_newline_terminated body terminator :
  no_newline body -> all_chars Str.is_newline terminator ->
  rstrip_newline (body ++ terminator) = body.
Proof.
  intros Hb Ht. unfold rstrip_newline.
  rewrite (StrFacts.rstrip_app_all _ _ _ Ht). apply no_newline_rstrip. exact Hb.
Qed.

(** ** Line length: S001 *)

(** X4: a line is reported as too long exactly when it has more than 79
    characters, its terminator not counted, whatever it holds and whatever
    else is reported for it. *)
Theorem S001_iff_longer_than_79
    (generate_tokens : string -> token_stream)
    (body terminator : string) (blank_lines_before : nat) :
  no_newline body -> all_chars Str.is_newline terminator ->
  reports generate_tokens (body ++ terminator) blank_lines_before "S001"
  <-> 79 < String.length body.
Proof.
  intros Hb Ht. rewrite reports_S001. unfold check_s001, MAX_LINE_LENGTH.
  rewrite (rstrip_newline_terminated _ _ Hb Ht).
  destruct (79 <? String.length body) eqn:E.
  - apply Nat.ltb_lt in E. tauto.
  - apply Nat.ltb_ge in E. split; [discriminate | lia].
Qed.

Lemma S001_iff_longer_than_79_witness :
  reports example_tokenizer (spaces 80 ++ newline) 0 "S001"
  /\ ~ reports example_tokenizer (spaces 79 ++ newline) 0 "S001".
Proof.
  split.
  - apply (S001_iff_longer_than_79 example_tokenizer (spaces 80) newline 0).
    + unfold no_newline, all_chars. vm_compute. repeat constructor.
    + repeat constructor.
    + vm_compute. lia.
  - intros H.
    apply (S001_iff_longer_than_79 example_tokenizer (spaces 79) newline 0) in H.
    + vm_compute in H. lia.
    + unfold no_newline, all_chars. vm_compute. repeat constructor.
    + repeat constructor.
Defined.

(** ** Indentation: S002 *)

Lemma length_spaces n : String.length (spaces n) = n.
Proof. induction n as [ | n IH]; simpl; [ | rewrite IH]; reflexivity. Qed.

Lemma all_chars_spaces n : all_chars Str.is_blank_char (spaces n).
Proof.
  induction n as [ | n IH]; [apply StrFacts.all_chars_nil | ].
  apply StrFacts.all_chars_cons. split; [reflexivity | exact IH].
Qed.

Lemma lstrip_not_space rest :
  starts_with_space rest = false -> Str.lstrip Str.is_blank_char rest = rest.
Proof. destruct rest as [ | c r]; simpl; [reflexivity | intros ->; reflexivity]. Qed.

Lemma is_blank_app_false a b : is_blank b = false -> is_blank (a ++ b) = false.
Proof.
  intros Hb. destruct (is_blank (a ++ b)) eqn:E; [ | reflexivity].
  apply is_blank_spec, StrFacts.all_chars_app in E as [_ E].
  apply is_blank_spec in E. congruence.
Qed.

(** X5: a line that is not blank and starts with exactly [n] spaces is
    reported for its indentation exactly when [n] is not a multiple of
    four; only leading spaces count, so a line that starts with a tab or
    with code counts as indented by zero. *)
Theorem S002_iff_indent_not_multiple_of_four
    (generate_tokens : string -> token_stream)
    (n : nat) (rest : string) (blank_lines_before : nat) :
  starts_with_space rest = false -> is_blank rest = false ->
  reports generate_tokens (spaces n ++ rest) blank_lines_before "S002"
  <-> n mod 4 <> 0.
Proof.
  intros Hstart Hblank. rewrite reports_S002. unfold check_s002.
  change (Str.is_empty (Str.strip (spaces n ++ rest)))
    with (is_blank (spaces n ++ rest)).
  rewrite (is_blank_app_false _ _ Hblank).
  rewrite (StrFacts.lstrip_app _ _ _ (all_chars_spaces n)),
    (lstrip_not_space _ Hstart), StrFacts.length_app, length_spaces.
  replace (n + String.length rest - String.length rest) with n by lia.
  destruct (n mod 4 =? 0) eqn:E; simpl.
  - apply Nat.eqb_eq in E. split; [discriminate | intros H; contradiction].
  - apply Nat.eqb_neq in E. tauto.
Qed.

Lemma S002_iff_indent_not_multiple_of_four_witness :
  reports example_tokenizer (spaces 3 ++ "x = 1") 0 "S002"
  /\ ~ reports example_tokenizer (spaces 8 ++ "x = 1") 0 "S002".
Proof.
  split.
  - apply (S002_iff_indent_not_multiple_of_four example_tokenizer 3 "x = 1" 0);
      [reflexivity | reflexivity | ]. vm_compute. discriminate.
  - intros H.
    apply (S002_iff_indent_not_multiple_of_four example_tokenizer 8 "x = 1" 0)
      in H; [ | reflexivity | reflexivity]. apply H. reflexivity.
Defined.

(** ** What the splitter hands to the checks *)

Lemma code_part_of_spec generate_tokens line :
  code_part_of generate_tokens line
  = rstrip_newline (code_before_comment generate_tokens line).
Proof.
  unfold code_part_of, code_before_comment, split_code_and_comment.
  destruct (first_comment_col (generate_tokens line)); reflexivity.
Qed.

Lemma comment_part_of_spec generate_tokens line :
  comment_part_of generate_tokens line
  = match first_comment_col (generate_tokens line) with
    | Some col => rstrip_newline (Str.drop col line)
    | None => EmptyString
    end.
Proof.
  unfold comment_part_of, split_code_and_comment.
  destruct (first_comment_col (generate_tokens line)); reflexivity.
Qed.

Lemma comment_col_of_spec generate_tokens line :
  comment_col_of generate_tokens line
  = match first_comment_col (generate_tokens line) with
    | Some col => Z.of_nat col
    | None => (-1)%Z
    end.
Proof.
  unfold comment_col_of, split_code_and_comment.
  destruct (first_comment_col (generate_tokens line)); reflexivity.
Qed.

(** ** Statement terminators: S003 *)

Lemma semicolon_not_space : Str.is_space ";"%char = false.
Proof. reflexivity. Qed.

Lemma check_s003_spec code :
  check_s003 code = Some "S003"
  <-> exists body trailing,
        code = (body ++ ";" ++ trailing)%string
        /\ all_chars Str.is_space trailing.
Proof.
  unfold check_s003.
  destruct (Str.endswith (Str.rstrip Str.is_space code) ";") eqn:E.
  - split; [intros _ | reflexivity].
    apply StrFacts.endswith_spec in E as (body & E).
    destruct (StrFacts.rstrip_decompose Str.is_space code) as (w & Hc & Hw).
    exists body, w. split; [ | exact Hw].
    rewrite Hc at 1. rewrite E. now rewrite <- StrFacts.app_assoc.
  - split; [discriminate | ].
    intros (body & w & -> & Hw). exfalso.
    rewrite StrFacts.app_assoc, (StrFacts.rstrip_app_all _ _ _ Hw) in E.
    rewrite (StrFacts.rstrip_keeps_last _ _ _ semicolon_not_space) in E.
    assert (H : Str.endswith (body ++ ";") ";" = true)
      by (apply StrFacts.endswith_spec; eauto).
    congruence.
Qed.

(** X6: an unnecessary semicolon is reported exactly when the line, cut
    before its first comment, ends with a semicolon followed by whitespace
    only; a semicolon inside the comment, or followed by more code, is not
    reported. *)
Theorem S003_iff_code_ends_with_semicolon
    (generate_tokens : string -> token_stream)
    (raw_line : string) (blank_lines_before : nat) :
  reports generate_tokens raw_line blank_lines_before "S003"
  <-> exists body trailing,
        code_before_comment generate_tokens raw_line
        = (body ++ ";" ++ trailing)%string
        /\ all_chars Str.is_space trailing.
Proof.
  rewrite reports_S003, code_part_of_spec.
  set (code := code_before_comment generate_tokens raw_line).
  unfold check_s003, rstrip_newline.
  rewrite (StrFacts.rstrip_rstrip Str.is_space Str.is_newline code
             StrFacts.newline_is_space).
  apply check_s003_spec.
Qed.

(** ** Comments: S004 and S005 *)

Lemma startswith_ignorecase_spec p : forall s,
  Str.startswith_ignorecase s p = true
  <-> exists word after,
        s = (word ++ after)%string
        /\ map Str.lower (list_ascii_of_string word) = list_ascii_of_string p.
Proof.
  induction p as [ | a p IH]; intros s.
  - split; [intros _ | destruct s; reflexivity].
    exists EmptyString, s. split; reflexivity.
  - destruct s as [ | b s]; simpl.
    + split; [discriminate | ].
      intros (word & after & E & Hw). destruct word; discriminate.
    + rewrite andb_true_iff, Ascii.eqb_eq, IH. split.
      * intros (Hb & word & after & -> & Hw).
        exists (String b word), after. split; [reflexivity | ].
        simpl. now rewrite Hb, Hw.
      * intros (word & after & E & Hw).
        destruct word as [ | c word]; [discriminate | ].
        simpl in E, Hw. injection E as -> ->. injection Hw as Hc Hw.
        split; [exact Hc | ]. exists word, after. auto.
Qed.

Lemma search_ignorecase_spec p s :
  Str.search_ignorecase p s = true
  <-> exists before rest,
        s = (before ++ rest)%string /\ Str.startswith_ignorecase rest p = true.
Proof.
  induction s as [ | c s IH].
  - simpl. rewrite orb_false_r. split.
    + intros H. exists EmptyString, EmptyString. auto.
    + intros (before & rest & E & H).
      destruct before; [ | discriminate]. simpl in E. subst rest. exact H.
  - cbn [Str.search_ignorecase]. rewrite orb_true_iff, IH. split.
    + intros [H | (before & rest & -> & H)].
      * exists EmptyString, (String c s). auto.
      * exists (String c before), rest. auto.
    + intros (before & rest & E & H). destruct before as [ | b before].
      * simpl in E. subst rest. auto.
      * simpl in E. injection E as -> ->. right. eauto.
Qed.

(** [RE_TODO.search] finds the word in any mix of cases, anywhere. *)
Lemma RE_TODO_search_spec s : RE_TODO_search s = true <-> contains_todo s.
Proof.
  unfold RE_TODO_search, contains_todo. rewrite search_ignorecase_spec. split.
  - intros (before & rest & -> & H).
    apply startswith_ignorecase_spec in H as (word & after & -> & Hw). eauto.
  - intros (before & word & after & -> & Hw).
    exists before, (word ++ after)%string. split; [reflexivity | ].
    apply startswith_ignorecase_spec. eauto.
Qed.

Lemma contains_todo_not_empty s : contains_todo s -> Str.is_empty s = false.
Proof.
  intros (before & word & after & -> & Hw).
  destruct word as [ | c word]; [discriminate | ].
  destruct before; reflexivity.
Qed.

Lemma check_s005_spec comment_part :
  check_s005 comment_part = Some "S005" <-> contains_todo comment_part.
Proof.
  unfold check_s005. rewrite <- RE_TODO_search_spec.
  destruct (RE_TODO_search comment_part) eqn:E.
  - apply RE_TODO_search_spec, contains_todo_not_empty in E. rewrite E.
    simpl. tauto.
  - rewrite andb_false_r. split; discriminate.
Qed.

(** X7: a line on which the tokenizer finds no comment is never reported
    for comment spacing nor for a TODO: the word in code or inside a string
    literal does not count. *)
Theorem no_comment_no_S004_no_S005
    (generate_tokens : string -> token_stream)
    (raw_line : string) (blank_lines_before : nat) :
  first_comment_col (generate_tokens raw_line) = None ->
  ~ reports generate_tokens raw_line blank_lines_before "S004"
  /\ ~ reports generate_tokens raw_line blank_lines_before "S005".
Proof.
  intros Hnone.
  rewrite reports_S004, reports_S005, comment_col_of_spec, comment_part_of_spec,
    Hnone.
  split; discriminate.
Qed.

Lemma no_comment_no_S004_no_S005_witness :
  ~ reports example_tokenizer line_string_only 0 "S004"
  /\ ~ reports example_tokenizer line_string_only 0 "S005".
Proof.
  apply (no_comment_no_S004_no_S005 example_tokenizer line_string_only 0).
  reflexivity.
Defined.

Lemma of_nat_not_minus_one n : (Z.of_nat n =? -1)%Z = false.
Proof. apply Z.eqb_neq. lia. Qed.

(** X8: when the tokenizer finds the first comment right after [code], a
    part of the line without newline, comment spacing is reported exactly
    when [code] is not blank (the comment does not stand alone on the line)
    and does not end with two spaces. *)
Theorem S004_iff_less_than_two_spaces
    (generate_tokens : string -> token_stream)
    (code rest : string) (blank_lines_before : nat) :
  first_comment_col (generate_tokens (code ++ rest)%string)
  = Some (String.length code) ->
  no_newline code ->
  reports generate_tokens (code ++ rest) blank_lines_before "S004"
  <-> is_blank code = false /\ Str.endswith code "  " = false.
Proof.
  intros Hcol Hcode.
  rewrite reports_S004, comment_col_of_spec, code_part_of_spec.
  unfold code_before_comment. rewrite Hcol, StrFacts.take_app.
  rewrite (no_newline_rstrip _ Hcode). unfold check_s004.
  rewrite of_nat_not_minus_one.
  change (Str.is_empty (Str.strip code)) with (is_blank code).
  destruct (is_blank code), (Str.endswith code "  "); simpl;
    split; try discriminate; try tauto; intros [? ?]; discriminate.
Qed.

Lemma S004_iff_less_than_two_spaces_witness :
  ~ reports more_tokenizer ("s = '#'  " ++ "# c") 0 "S004"
  /\ reports more_tokenizer ("x = 1 " ++ "# ToDo: later") 0 "S004".
Proof.
  split.
  - intros H.
    apply (S004_iff_less_than_two_spaces more_tokenizer "s = '#'  " "# c" 0)
      in H as [_ H]; [discriminate H | reflexivity | ].
    unfold no_newline, all_chars. vm_compute. repeat constructor.
  - apply (S004_iff_less_than_two_spaces more_tokenizer "x = 1 "
             "# ToDo: later" 0).
    + reflexivity.
    + unfold no_newline, all_chars. vm_compute. repeat constructor.
    + split; reflexivity.
Defined.

(** X9: when the tokenizer finds the first comment right after [code], a
    TODO is reported exactly when the comment, up to the line terminator,
    holds the word "todo" in any mix of upper and lower case. *)
Theorem S005_iff_comment_holds_todo
    (generate_tokens : string -> token_stream)
    (code comment terminator : string) (blank_lines_before : nat) :
  first_comment_col (generate_tokens (code ++ comment ++ terminator)%string)
  = Some (String.length code) ->
  no_newline comment -> all_chars Str.is_newline terminator ->
  reports generate_tokens (code ++ comment ++ terminator) blank_lines_before
    "S005"
  <-> contains_todo comment.
Proof.
  intros Hcol Hcomment Hterm.
  rewrite reports_S005, comment_part_of_spec, Hcol, StrFacts.drop_app.
  rewrite (rstrip_newline_terminated _ _ Hcomment Hterm).
  apply check_s005_spec.
Qed.

Lemma S005_iff_comment_holds_todo_witness :
  reports more_tokenizer ("x = 1 " ++ "# ToDo: later" ++ EmptyString) 0 "S005".
Proof.
  apply (S005_iff_comment_holds_todo more_tokenizer "x = 1 " "# ToDo: later"
           EmptyString 0).
  - reflexivity.
  - unfold no_newline, all_chars. vm_compute. repeat constructor.
  - constructor.
  - exists "# ", "ToDo", ": later". split; reflexivity.
Defined.

(** ** Definition headers: S007, S008, S009 *)

Lemma prefix_app a b : String.prefix a (a ++ b) = true.
Proof.
  induction a as [ | c a IH]; simpl; [destruct b; reflexivity | ].
  destruct (ascii_dec c c); [exact IH | contradiction].
Qed.

Lemma ident_start_not_space c : is_ident_start c = true -> Str.is_space c = false.
Proof.
  unfold is_ident_start, Str.is_lower, Str.is_upper, Str.is_underscore,
    Str.is_space, Str.in_range.
  rewrite !orb_true_iff, !andb_true_iff, !Nat.leb_le, Nat.eqb_eq.
  intros H. rewrite !orb_false_iff, !andb_false_iff, !Nat.leb_gt, !Nat.eqb_neq.
  lia.
Qed.

Lemma ident_start_char c : is_ident_start c = true -> is_ident_char c = true.
Proof. unfold is_ident_char. intros ->. reflexivity. Qed.

Lemma span_name name rest :
  all_chars is_ident_char name -> ends_name rest = true ->
  Str.span is_ident_char (name ++ rest) = (name, rest).
Proof.
  intros Hname Hrest. destruct rest as [ | r rest].
  - rewrite StrFacts.app_nil_r. apply StrFacts.span_all. exact Hname.
  - apply StrFacts.span_app; [exact Hname | ].
    simpl in Hrest. apply negb_true_iff. exact Hrest.
Qed.

(** Matching a header that was put together from its parts gives the
    parts back. *)
Lemma match_header_compose k kw indent seps name rest :
  Str.is_space k = false ->
  all_chars Str.is_space indent ->
  all_chars Str.is_space seps -> seps <> EmptyString ->
  is_identifier name -> ends_name rest = true ->
  match_header (String k kw) (indent ++ String k kw ++ seps ++ name ++ rest)
  = Some (seps, name).
Proof.
  intros Hk Hindent Hseps Hne (c & tail & -> & Hc & Htail) Hrest.
  unfold match_header.
  change (indent ++ String k kw ++ seps ++ String c tail ++ rest)%string
    with (indent ++ String k (kw ++ seps ++ String c tail ++ rest))%string.
  rewrite (StrFacts.span_app _ _ _ _ Hindent Hk).
  change (String k (kw ++ seps ++ String c tail ++ rest))%string
    with (String k kw ++ (seps ++ String c tail ++ rest))%string.
  unfold Str.startswith. rewrite prefix_app, StrFacts.drop_app.
  change (seps ++ String c tail ++ rest)%string
    with (seps ++ String c (tail ++ rest))%string.
  rewrite (StrFacts.span_app _ _ _ _ Hseps (ident_start_not_space _ Hc)).
  destruct seps as [ | s0 seps]; [contradiction | ].
  rewrite Hc.
  change (String c (tail ++ rest))%string with (String c tail ++ rest)%string.
  rewrite span_name; [reflexivity | | exact Hrest].
  apply StrFacts.all_chars_cons. split; [apply ident_start_char; exact Hc | exact Htail].
Qed.

Lemma class_pattern_not_on_def indent after :
  all_chars Str.is_space indent ->
  RE_CLASS_match (indent ++ "def" ++ after) = None.
Proof.
  intros Hindent. unfold RE_CLASS_match, match_header.
  change (indent ++ "def" ++ after)%string
    with (indent ++ String "d" ("ef" ++ after))%string.
  rewrite (StrFacts.span_app Str.is_space indent "d"%char _ Hindent eq_refl).
  reflexivity.
Qed.

(** X10: on a header line made of an indentation, the keyword, a run of
    whitespace, an identifier and anything that does not go on with the
    identifier, the header check finds S007 exactly when the run is longer
    than one character, and a naming finding exactly when a function name
    fails the snake check (S009), or a class name the upper-camel check
    (S008); the finding carries the keyword, or the name. *)
Theorem header_line_findings
    (indent seps name rest : string) :
  all_chars Str.is_space indent ->
  all_chars Str.is_space seps -> seps <> EmptyString ->
  is_identifier name -> ends_name rest = true ->
  check_s007_s008_s009 (indent ++ "def" ++ seps ++ name ++ rest)
  = (if 1 <? String.length seps then [("S007", [("kw", "def")])] else [])
    ++ (if is_snake_case name then [] else [("S009", [("name", name)])])
  /\ check_s007_s008_s009 (indent ++ "class" ++ seps ++ name ++ rest)
     = (if 1 <? String.length seps then [("S007", [("kw", "class")])] else [])
       ++ (if is_camel_case name then [] else [("S008", [("name", name)])]).
Proof.
  intros Hindent Hseps Hne Hname Hrest. unfold check_s007_s008_s009. split.
  - rewrite (class_pattern_not_on_def _ _ Hindent).
    unfold RE_DEF_match.
    rewrite (match_header_compose "d" "ef" indent seps name rest eq_refl
               Hindent Hseps Hne Hname Hrest).
    destruct (is_snake_case name); reflexivity.
  - unfold RE_CLASS_match.
    rewrite (match_header_compose "c" "lass" indent seps name rest eq_refl
               Hindent Hseps Hne Hname Hrest).
    destruct (is_camel_case name); reflexivity.
Qed.

Lemma header_line_findings_witness :
  check_s007_s008_s009 ("    " ++ "def" ++ "  " ++ "getName" ++ "(self):")
  = [("S007", [("kw", "def")]); ("S009", [("name", "getName")])]
  /\ check_s007_s008_s009 ("    " ++ "class" ++ "  " ++ "getName" ++ "(self):")
     = [("S007", [("kw", "class")]); ("S008", [("name", "getName")])].
Proof.
  apply (header_line_findings "    " "  " "getName" "(self):").
  - repeat constructor.
  - repeat constructor.
  - discriminate.
  - exists "g"%char, "etName". repeat split. repeat constructor.
  - reflexivity.
Defined.

(** X11: no line is reported both for a class name and for a function
    name: the class pattern is tried first and the function pattern only
    when it does not match. *)
Theorem S008_and_S009_exclude_each_other
    (generate_tokens : string -> token_stream)
    (raw_line : string) (blank_lines_before : nat) :
  reports generate_tokens raw_line blank_lines_before "S008" ->
  ~ reports generate_tokens raw_line blank_lines_before "S009".
Proof.
  rewrite !reports_header by auto.
  unfold check_s007_s008_s009, keys.
  destruct (RE_CLASS_match raw_line) as [[seps name] | ].
  - intros _ H. destruct (1 <? _), (negb _); simpl in H;
      repeat (destruct H as [H | H]; [discriminate H | ]); exact H.
  - destruct (RE_DEF_match raw_line) as [[seps name] | ].
    + intros H. exfalso. destruct (1 <? _), (negb _); simpl in H;
        repeat (destruct H as [H | H]; [discriminate H | ]); exact H.
    + intros [].
Qed.

Lemma S008_and_S009_exclude_each_other_witness :
  ~ reports example_tokenizer "class getName:" 0 "S009".
Proof.
  apply (S008_and_S009_exclude_each_other example_tokenizer "class getName:" 0).
  vm_compute. auto.
Defined.

(** ** Blank lines *)

Lemma header_patterns_not_on_blank raw_line :
  all_chars Str.is_space raw_line -> check_s007_s008_s009 raw_line = [].
Proof.
  intros H. unfold check_s007_s008_s009, RE_CLASS_match, RE_DEF_match,
    match_header.
  rewrite (StrFacts.span_all _ _ H). reflexivity.
Qed.

(** X12: a line made of whitespace only (spaces, tabs, the terminator) is
    blank: it adds one to the run of blank lines and is never reported for
    indentation, for the blank lines before it or for a header. *)
Theorem whitespace_line_is_blank
    (generate_tokens : string -> token_stream)
    (raw_line : string) (blank_lines_before : nat) :
  all_chars Str.is_space raw_line ->
  next_blank_lines blank_lines_before raw_line = S blank_lines_before
  /\ forall c,
       In c ["S002"; "S006"; "S007"; "S008"; "S009"] ->
       ~ reports generate_tokens raw_line blank_lines_before c.
Proof.
  intros Hws. pose proof (proj2 (is_blank_spec raw_line) Hws) as Hblank.
  split.
  - rewrite next_blank_lines_spec, Hblank. reflexivity.
  - intros c Hc. simpl in Hc.
    destruct Hc as [<- | [<- | Hc]].
    + rewrite reports_S002. unfold check_s002.
      change (Str.is_empty (Str.strip raw_line)) with (is_blank raw_line).
      rewrite Hblank. discriminate.
    + rewrite reports_S006, Hblank. discriminate.
    + rewrite reports_header by (destruct Hc as [<- | [<- | [<- | []]]]; auto).
      rewrite (header_patterns_not_on_blank _ Hws). intros [].
Qed.

Lemma whitespace_line_is_blank_witness :
  next_blank_lines 2 (spaces 3 ++ newline) = 3
  /\ forall c,
       In c ["S002"; "S006"; "S007"; "S008"; "S009"] ->
       ~ reports example_tokenizer (spaces 3 ++ newline) 2 c.
Proof.
  apply (whitespace_line_is_blank example_tokenizer (spaces 3 ++ newline) 2).
  repeat constructor.
Defined.

(** ** The line scanner over a file *)

Lemma find_issues_codes_strict generate_tokens raw_line blank_lines_before :
  StronglySorted Str.lt
    (keys (find_issues_for_line generate_tokens raw_line blank_lines_before)).
Proof.
  unfold find_issues_for_line.
  destruct (split_code_and_comment generate_tokens raw_line)
    as [[code_part comment_part] comment_col].
  apply sorted_NoDup_strict; [apply sorted_by_code_keys_sorted | ].
  eapply Permutation_NoDup;
    [apply Permutation_map; symmetry; apply sorted_by_code_Permutation | ].
  apply unique_by_code_NoDup.
Qed.

Lemma in_line_items path n issues item :
  In item (line_items path n issues) ->
  file_path item = path /\ line_number item = n
  /\ In (code item) (keys issues).
Proof.
  unfold line_items, keys. intros H.
  apply in_map_iff in H as (issue & <- & Hin). simpl.
  repeat split. apply in_map. exact Hin.
Qed.

Lemma in_scan_lines generate_tokens path lines : forall n b item,
  In item (scan_lines generate_tokens path lines n b) ->
  file_path item = path
  /\ n <= line_number item < n + length lines
  /\ In (code item) (keys MESSAGES).
Proof.
  induction lines as [ | raw_line rest IH]; intros n b item H; simpl in H.
  - destruct H.
  - apply in_app_iff in H as [H | H].
    + apply in_line_items in H as (Hp & Hn & Hc). simpl.
      repeat split; try lia; [exact Hp | ].
      eapply find_issues_codes_in_catalog. exact Hc.
    + apply IH in H as (Hp & Hn & Hc). simpl. repeat split; try lia; assumption.
Qed.

(** X13: every finding of the line scanner carries the path of the file,
    the number of one of its lines, counted from 1, and a code that is a
    key of the catalog, so that looking up its message never fails. *)
Theorem line_findings_well_formed
    (generate_tokens : string -> token_stream)
    (path : string) (lines : list string) (item : ReportItem) :
  In item (scan_lines generate_tokens path lines 1 0) ->
  file_path item = path
  /\ 1 <= line_number item <= length lines
  /\ exists template, dict_get MESSAGES (code item) = Some template.
Proof.
  intros H. apply in_scan_lines in H as (Hp & Hn & Hc).
  repeat split; try lia; [exact Hp | ].
  apply in_keys_dict_get in Hc.
  destruct (dict_get MESSAGES (code item)) as [template | ];
    [eauto | contradiction].
Qed.

Lemma line_findings_well_formed_witness :
  file_path (S006_at "f.py" 4) = "f.py"
  /\ 1 <= line_number (S006_at "f.py" 4) <= 4
  /\ exists template, dict_get MESSAGES (code (S006_at "f.py" 4)) = Some template.
Proof.
  apply (line_findings_well_formed example_tokenizer "f.py"
           [newline; newline; newline; ("x = 1" ++ newline)%string]).
  vm_compute. auto.
Defined.

Lemma StronglySorted_app {A : Type} (R : A -> A -> Prop) (l1 l2 : list A) :
  StronglySorted R l1 -> StronglySorted R l2 ->
  (forall a b, In a l1 -> In b l2 -> R a b) ->
  StronglySorted R (l1 ++ l2).
Proof.
  intros H1 H2 H12. induction H1 as [ | x l1 _ IH Hx]; simpl; [exact H2 | ].
  constructor.
  - apply IH. intros a b Ha Hb. apply H12; [right; exact Ha | exact Hb].
  - apply Forall_app. split; [exact Hx | ].
    apply Forall_forall. intros b Hb. apply H12; [left; reflexivity | exact Hb].
Qed.

Lemma line_items_sorted path n issues :
  StronglySorted Str.lt (keys issues) ->
  StronglySorted ReportItem_lt (line_items path n issues).
Proof.
  unfold keys, line_items.
  induction issues as [ | issue issues IH]; simpl; intros H; [constructor | ].
  apply StronglySorted_inv in H as [H Hx]. constructor; [apply IH; exact H | ].
  rewrite Forall_forall in *. intros item Hitem.
  apply in_map_iff in Hitem as (issue' & <- & Hin).
  apply ReportItem_lt_lexicographic. unfold lexicographic_lt. simpl.
  right. split; [reflexivity | ]. right. split; [reflexivity | ].
  left. apply Hx. apply in_map. exact Hin.
Qed.

(** X14: the findings of the line scanner come out already in the order
    of the report: by line number, then by code, with no finding twice. *)
Theorem line_findings_in_report_order
    (generate_tokens : string -> token_stream)
    (path : string) (lines : list string) :
  StronglySorted ReportItem_lt (scan_lines generate_tokens path lines 1 0).
Proof.
  assert (G : forall n b,
            StronglySorted ReportItem_lt
              (scan_lines generate_tokens path lines n b)); [ | apply G].
  induction lines as [ | raw_line rest IH]; intros n b; simpl; [constructor | ].
  apply StronglySorted_app.
  - apply line_items_sorted, find_issues_codes_strict.
  - apply IH.
  - intros a c Ha Hc.
    apply in_line_items in Ha as (Hap & Han & _).
    apply in_scan_lines in Hc as (Hcp & Hcn & _).
    apply ReportItem_lt_lexicographic. unfold lexicographic_lt.
    right. split; [congruence | ]. left. lia.
Qed.

Lemma scan_lines_app generate_tokens path (lines1 lines2 : list string) :
  forall n b,
    scan_lines generate_tokens path (lines1 ++ lines2) n b
    = scan_lines generate_tokens path lines1 n b
      ++ scan_lines generate_tokens path lines2 (n + length lines1)
           (fold_left next_blank_lines lines1 b).
Proof.
  induction lines1 as [ | raw_line rest IH]; intros n b; simpl.
  - now rewrite Nat.add_0_r.
  - rewrite IH, <- app_assoc, Nat.add_succ_r. reflexivity.
Qed.

(** X15: the scan of a file is the scan of its first lines followed by
    the scan of the others, started at their line number with the count of
    blank lines the first ones end with; after a line that is not blank the
    others are scanned as a file of their own, but for the line numbers. *)
Theorem scan_lines_in_two_parts
    (generate_tokens : string -> token_stream)
    (path : string) (lines1 lines2 : list string) (last : string) :
  scan_lines generate_tokens path (lines1 ++ lines2) 1 0
  = scan_lines generate_tokens path lines1 1 0
    ++ scan_lines generate_tokens path lines2 (1 + length lines1)
         (fold_left next_blank_lines lines1 0)
  /\ (is_blank last = false ->
      scan_lines generate_tokens path ((lines1 ++ [last]) ++ lines2) 1 0
      = scan_lines generate_tokens path (lines1 ++ [last]) 1 0
        ++ scan_lines generate_tokens path lines2 (2 + length lines1) 0).
Proof.
  split; [apply scan_lines_app | ].
  intros Hlast. rewrite (scan_lines_app _ _ (lines1 ++ [last])).
  rewrite fold_left_app, length_app. simpl.
  rewrite next_blank_lines_spec, Hlast.
  replace (S (length lines1 + 1)) with (S (S (length lines1))) by lia.
  reflexivity.
Qed.

Lemma scan_lines_in_two_parts_witness :
  scan_lines example_tokenizer "f.py"
    (([newline] ++ [("x = 1" ++ newline)%string]) ++ [newline; newline]) 1 0
  = scan_lines example_tokenizer "f.py"
      ([newline] ++ [("x = 1" ++ newline)%string]) 1 0
    ++ scan_lines example_tokenizer "f.py" [newline; newline] 3 0.
Proof.
  apply (proj2 (scan_lines_in_two_parts example_tokenizer "f.py" [newline]
                  [newline; newline] ("x = 1" ++ newline)%string)).
  reflexivity.
Defined.

(** ** The walk of a body *)

(** X16: the walk of a body never hands out a nested function, class or
    lambda that lies below a statement: every node it yields is one of the
    statements of the body or is not of a skipped class. *)
Theorem walk_yields_statements_or_unskipped (nodes : list AST) (n : AST) :
  In n (walk_without_nested_scopes nodes) ->
  In n nodes \/ is_skip_type n = false.
Proof. apply walk_stack_yields. Qed.

Lemma walk_yields_statements_or_unskipped_witness :
  In (assign_BadName 3) [inner_def] \/ is_skip_type (assign_BadName 3) = false.
Proof.
  apply (walk_yields_statements_or_unskipped [inner_def] (assign_BadName 3)).
  vm_compute. auto.
Defined.

Lemma push_children_app children : forall stack below,
  push_children (stack ++ below) children
  = push_children stack children ++ below.
Proof.
  unfold push_children.
  induction children as [ | child children IH]; intros stack below; simpl.
  - reflexivity.
  - destruct (is_skip_type child); [apply IH | ].
    apply (IH (child :: stack) below).
Qed.

Lemma walk_stack_app fuel : forall stack below,
  sizes stack <= fuel ->
  walk_stack (fuel + sizes below) (stack ++ below)
  = walk_stack fuel stack ++ walk_stack (sizes below) below.
Proof.
  induction fuel as [ | fuel IH]; intros stack below Hle.
  - destruct stack as [ | node stack].
    + reflexivity.
    + simpl in Hle. rewrite size_unfold in Hle. lia.
  - destruct stack as [ | node stack].
    + simpl app. rewrite Nat.add_comm. apply walk_stack_fuel. lia.
    + simpl. f_equal. rewrite push_children_app. apply IH.
      simpl in Hle. rewrite size_unfold in Hle.
      pose proof (sizes_push_children (iter_child_nodes node) stack). lia.
Qed.

(** X17: the walk treats the statements of a body one after the other:
    the walk of two runs of statements is the walk of the first followed
    by the walk of the second, and so are the S011 findings. *)
Theorem walk_of_consecutive_statements
    (file_path : string) (first second : list AST) :
  walk_without_nested_scopes (first ++ second)
  = walk_without_nested_scopes first ++ walk_without_nested_scopes second
  /\ S011_items file_path (first ++ second)
     = S011_items file_path first ++ S011_items file_path second.
Proof.
  assert (H : walk_without_nested_scopes (first ++ second)
              = walk_without_nested_scopes first
                ++ walk_without_nested_scopes second).
  { unfold walk_without_nested_scopes. rewrite sizes_app.
    apply walk_stack_app. lia. }
  split; [exact H | ].
  unfold S011_items. rewrite H. apply flat_map_app.
Qed.

Lemma walk_stack_length fuel : forall stack,
  length (walk_stack fuel stack) <= sizes stack.
Proof.
  induction fuel as [ | fuel IH]; intros stack; [simpl; lia | ].
  destruct stack as [ | node stack]; [simpl; lia | ].
  simpl. rewrite size_unfold.
  pose proof (IH (push_children stack (iter_child_nodes node))).
  pose proof (sizes_push_children (iter_child_nodes node) stack). lia.
Qed.

(** X18: the loop of the walk ends: it takes at most one turn for each
    node of the body, and turns left over change nothing. *)
Theorem walk_ends_within_size (nodes : list AST) (extra : nat) :
  walk_stack (sizes nodes + extra) nodes = walk_without_nested_scopes nodes
  /\ length (walk_without_nested_scopes nodes) <= sizes nodes.
Proof.
  split.
  - apply walk_stack_fuel. lia.
  - apply walk_stack_length.
Qed.

(** ** Parameter names: S010 *)

Lemma filter_same_code c (l : list ReportItem) :
  Forall (fun item => code item = c) l -> filter (has_code c) l = l.
Proof.
  induction 1 as [ | item l Hc _ IH]; simpl; [reflexivity | ].
  unfold has_code at 1. rewrite Hc, String.eqb_refl, IH. reflexivity.
Qed.

Lemma S012_items_code file_path lineno args :
  Forall (fun item => code item = "S012") (S012_items file_path lineno args).
Proof.
  unfold S012_items. destruct (existsb _ _); repeat constructor.
Qed.

Lemma arg_of_mk_arg params : flat_map arg_of (map mk_arg params) = map fst params.
Proof. induction params as [ | p params IH]; simpl; [ | rewrite IH]; reflexivity. Qed.

Lemma arg_of_opt param :
  flat_map arg_of (opt_node (option_map mk_arg param))
  = opt_list (option_map fst param).
Proof. destruct param; reflexivity. Qed.

Lemma S010_items_spec file_path lineno args :
  S010_items file_path lineno args
  = map (S010_item file_path lineno) (not_snake (arg_names_of args)).
Proof. reflexivity. Qed.

(** X19: the visit of a definition, asynchronous or not, reports S010
    once for every parameter whose name fails the snake check, at the line
    of the definition and with the name in the message: positional-only
    parameters first, then positional, keyword-only, [*args] and
    [**kwargs]; nothing is merged, a name that occurs twice is reported
    twice. *)
Theorem one_S010_per_bad_parameter
    (async : bool) (file_path : string) (lineno : nat) (name : string)
    (posonlyargs args kwonlyargs : list (string * option AST))
    (vararg kwarg : option (string * option AST))
    (kw_defaults : list (option AST)) (defaults : list AST)
    (body decorator_list : list AST) (returns : option AST)
    (type_params : list AST) :
  filter (has_code "S010")
    (analyze_node file_path
       (definition async lineno name
          (arguments (map mk_arg posonlyargs) (map mk_arg args)
             (option_map mk_arg vararg) (map mk_arg kwonlyargs) kw_defaults
             (option_map mk_arg kwarg) defaults)
          body decorator_list returns type_params))
  = map (S010_item file_path lineno)
      (not_snake
         (map fst posonlyargs ++ map fst args ++ map fst kwonlyargs
          ++ opt_list (option_map fst vararg)
          ++ opt_list (option_map fst kwarg))).
Proof.
  destruct async; simpl; rewrite !filter_app;
    rewrite (filter_same_code "S010" _ (S010_items_code _ _ _)),
            (filter_other_code "S010" "S012" _ eq_refl (S012_items_code _ _ _)),
            (filter_other_code "S010" "S011" _ eq_refl (S011_items_code _ _));
    rewrite !app_nil_r, S010_items_spec; unfold arg_names_of;
    rewrite !arg_of_mk_arg, !arg_of_opt; reflexivity.
Qed.

(** ** The findings of the structural scanner *)

Lemma in_analyze_node path node item :
  In item (analyze_node path node) ->
  is_function node = true
  /\ file_path item = path
  /\ In (code item) ["S010"; "S011"; "S012"].
Proof.
  assert (G : forall lineno args body,
            In item (S010_items path lineno args
                     ++ S012_items path lineno args
                     ++ S011_items path body) ->
            file_path item = path /\ In (code item) ["S010"; "S011"; "S012"]).
  { intros lineno args body H. rewrite !in_app_iff in H.
    destruct H as [H | [H | H]].
    - unfold S010_items in H. apply in_map_iff in H as (n & <- & _).
      simpl. auto.
    - unfold S012_items in H. destruct (existsb _ _); [ | destruct H].
      destruct H as [<- | []]. simpl. auto.
    - unfold S011_items in H. apply in_flat_map in H as (inner & _ & H).
      unfold S011_items_of in H.
      destruct (assignment_targets inner) as [[l targets] | ]; [ | destruct H].
      apply in_map_iff in H as (n & <- & _). simpl. auto. }
  destruct node; simpl; try (intros []); intros H;
    (split; [reflexivity | eapply G; exact H]).
Qed.

(** X20: every finding of the structural scanner carries the path it was
    given and one of the codes S010, S011 and S012, and is among the
    findings exactly when the visit of a function definition met by
    [ast.walk] produces it; so a tree in which no function is defined, at
    any depth, gives no finding at all, whatever it assigns at module level
    or in the bodies of its classes. *)
Theorem structural_findings_need_a_function (path : string) (tree : AST) :
  (forall item,
     In item (analyze_tree path tree) ->
     file_path item = path /\ In (code item) ["S010"; "S011"; "S012"])
  /\ ((forall node, In node (ast_walk tree) -> is_function node = false) ->
      analyze_tree path tree = [])
  /\ (forall item,
        In item (analyze_tree path tree)
        <-> exists node,
              In node (ast_walk tree)
              /\ is_function node = true
              /\ In item (analyze_node path node)).
Proof.
  unfold analyze_tree. split; [ | split].
  - intros item H. apply in_flat_map in H as (node & _ & H).
    apply in_analyze_node in H. tauto.
  - intros Hnone. destruct (flat_map _ _) as [ | item rest] eqn:E;
      [reflexivity | exfalso].
    assert (H : In item (flat_map (analyze_node path) (ast_walk tree)))
      by (rewrite E; left; reflexivity).
    apply in_flat_map in H as (node & Hnode & H).
    apply in_analyze_node in H as (Hf & _). rewrite (Hnone _ Hnode) in Hf.
    discriminate.
  - intros item. rewrite in_flat_map. split.
    + intros (node & Hnode & H). exists node.
      split; [exact Hnode | split; [ | exact H]].
      apply in_analyze_node in H as (Hf & _). exact Hf.
    + intros (node & Hnode & _ & H). exists node. split; assumption.
Qed.

Lemma structural_findings_need_a_function_witness :
  analyze_tree "f.py"
    (Module [assign_BadName 1; ClassDef 2 "Inner" [] [] [assign_BadName 3] [] []])
  = [].
Proof.
  apply (proj1 (proj2 (structural_findings_need_a_function "f.py"
    (Module [assign_BadName 1;
             ClassDef 2 "Inner" [] [] [assign_BadName 3] [] []])))).
  intros node H. vm_compute in H.
  repeat (destruct H as [<- | H]; [reflexivity | ]). destruct H.
Defined.

(** ** Every definition of a file is visited *)

Lemma walk_queue_complete fuel : forall todo n,
  sizes todo <= fuel -> In n todo -> In n (walk_queue fuel todo).
Proof.
  induction fuel as [ | fuel IH]; intros todo n Hle Hin.
  - destruct todo as [ | node todo]; [destruct Hin | ].
    simpl in Hle. rewrite size_unfold in Hle. lia.
  - destruct todo as [ | node todo]; [destruct Hin | ].
    simpl. destruct Hin as [-> | Hin]; [left; reflexivity | right].
    simpl in Hle. rewrite size_unfold in Hle.
    apply IH; [rewrite sizes_app; lia | ].
    apply in_app_iff. left. exact Hin.
Qed.

Lemma walk_queue_children fuel : forall todo node c,
  sizes todo <= fuel -> In node (walk_queue fuel todo) ->
  In c (iter_child_nodes node) -> In c (walk_queue fuel todo).
Proof.
  induction fuel as [ | fuel IH]; intros todo node c Hle Hnode Hc;
    [destruct Hnode | ].
  destruct todo as [ | top todo]; [destruct Hnode | ].
  simpl in Hle. rewrite size_unfold in Hle.
  simpl in *. right. destruct Hnode as [-> | Hnode].
  - apply walk_queue_complete; [rewrite sizes_app; lia | ].
    apply in_app_iff. right. exact Hc.
  - apply (IH _ node); try assumption. rewrite sizes_app. lia.
Qed.

Lemma ast_walk_subnode tree : forall t n,
  subnode t n -> In t (ast_walk tree) -> In n (ast_walk tree).
Proof.
  induction 1 as [t | t c n Hc _ IH]; intros Ht; [exact Ht | ].
  apply IH. unfold ast_walk in *.
  apply (walk_queue_children _ _ t); try assumption. simpl. lia.
Qed.

(** X21: every definition of the file is visited, however deep it lies
    in classes, functions or other statements: what the visit of a node
    of the tree reports is part of the findings of the file. *)
Theorem nested_definitions_are_visited
    (path : string) (tree node : AST) (item : ReportItem) :
  subnode tree node ->
  In item (analyze_node path node) ->
  In item (analyze_tree path tree).
Proof.
  intros Hsub Hitem. unfold analyze_tree. apply in_flat_map.
  exists node. split; [ | exact Hitem].
  apply (ast_walk_subnode tree tree node Hsub).
  unfold ast_walk. apply walk_queue_complete; [simpl; lia | left; reflexivity].
Qed.

Lemma nested_definitions_are_visited_witness :
  In (S011_item "f.py" 4 "BadName")
     (analyze_tree "f.py" (Module [outer_with_guarded_def])).
Proof.
  apply (nested_definitions_are_visited "f.py" (Module [outer_with_guarded_def])
           (FunctionDef 3 "inner" no_arguments [assign_BadName 4] [] None [])).
  - apply (subnode_below _ outer_with_guarded_def); [left; reflexivity | ].
    apply (subnode_below _
             (If (Name "flag" Load)
                [FunctionDef 3 "inner" no_arguments [assign_BadName 4] []
                   None []] []));
      [right; left; reflexivity | ].
    apply (subnode_below _
             (FunctionDef 3 "inner" no_arguments [assign_BadName 4] [] None []));
      [right; left; reflexivity | apply subnode_self].
  - left. reflexivity.
Defined.

(** ** Names bound by plain targets *)

Lemma extract_name_targets names :
  flat_map extract_assigned_names (name_targets names) = names.
Proof.
  induction names as [ | n names IH]; simpl; [ | rewrite IH]; reflexivity.
Qed.

(** X22: the names of an assignment are checked one by one, in the order
    they are written and with nothing merged: an assignment to several
    targets, or to a tuple or a list of names, written on one line gives
    one S011 finding at that line for every name that fails the snake
    check, also when a name occurs twice; an annotated or an augmented
    assignment to a name gives at most one. *)
Theorem one_S011_per_bad_name
    (path : string) (lineno : nat) (names : list string) (name : string)
    (value op annotation ctx : AST) (optional_value : option AST) :
  let findings := map (S011_item path lineno) (not_snake names) in
  S011_items_of path (Assign lineno (name_targets names) value) = findings
  /\ S011_items_of path (Assign lineno [Tuple (name_targets names) ctx] value)
     = findings
  /\ S011_items_of path (Assign lineno [List_ (name_targets names) ctx] value)
     = findings
  /\ S011_items_of path
       (AnnAssign lineno (Name name ctx) annotation optional_value)
     = map (S011_item path lineno) (not_snake [name])
  /\ S011_items_of path (AugAssign lineno (Name name ctx) op value)
     = map (S011_item path lineno) (not_snake [name]).
Proof.
  unfold S011_items_of. simpl.
  rewrite ?app_nil_r, !extract_name_targets. repeat split.
Qed.

(** ** Discovery of the files *)

Lemma endswith_app a b p : Str.endswith b p = true -> Str.endswith (a ++ b) p = true.
Proof.
  rewrite !StrFacts.endswith_spec. intros (x & ->).
  exists (a ++ x)%string. now rewrite StrFacts.app_assoc.
Qed.

Lemma os_path_join_endswith root name p :
  Str.endswith name p = true -> Str.endswith (os_path_join root name) p = true.
Proof.
  intros H. unfold os_path_join.
  destruct (Str.startswith name "/"); [exact H | ].
  destruct (Str.is_empty root || Str.endswith root "/").
  - apply endswith_app. exact H.
  - apply endswith_app, endswith_app. exact H.
Qed.

(** X23: whatever the directory tree holds, every path handed out by the
    discovery ends in [.py]; a path to a single file is handed out alone
    when it ends in [.py], and nothing is when it does not. *)
Theorem iter_python_files_only_py
    (isfile : string -> bool)
    (os_walk : string -> list (string * list string * list string))
    (path : string) :
  (forall p, In p (iter_python_files isfile os_walk path) ->
             Str.endswith p ".py" = true)
  /\ (isfile path = true ->
      iter_python_files isfile os_walk path
      = if Str.endswith path ".py" then [path] else []).
Proof.
  unfold iter_python_files. split.
  - intros p H. destruct (isfile path).
    + destruct (Str.endswith path ".py") eqn:E; [ | destruct H].
      destruct H as [<- | []]. exact E.
    + apply in_flat_map in H as ([[root dirs] files] & _ & H).
      apply in_map_iff in H as (name & <- & H).
      apply filter_In in H as [_ H]. apply os_path_join_endswith. exact H.
  - intros ->. reflexivity.
Qed.

Lemma iter_python_files_only_py_witness :
  iter_python_files (fun p => String.eqb p "notes.txt") (fun _ => []) "notes.txt"
  = [].
Proof.
  apply (proj2 (iter_python_files_only_py
                  (fun p => String.eqb p "notes.txt") (fun _ => []) "notes.txt")).
  reflexivity.
Defined.

(** ** One file *)

(** X24: for a file that can be read, the findings are those of its
    lines followed by those of its tree; when the text does not parse
    ([SyntaxError]) the findings of the lines are returned all the same,
    and no structural finding; an exception of the parser that the
    structural scanner does not catch ([ValueError]) leaves
    [analyze_file]. *)
Theorem parse_failure_keeps_line_findings
    (generate_tokens : string -> token_stream)
    (ast_parse : string -> result AST) (open_ : string -> file)
    (path source : string) :
  open_ path = Text source ->
  let line_findings := scan_lines generate_tokens path (lines_of source) 1 0 in
  (ast_parse source = Raise SyntaxError ->
   analyze_file generate_tokens ast_parse open_ path = Return line_findings)
  /\ (forall tree,
        ast_parse source = Return tree ->
        analyze_file generate_tokens ast_parse open_ path
        = Return (line_findings ++ analyze_tree path tree))
  /\ (ast_parse source = Raise ValueError ->
      analyze_file generate_tokens ast_parse open_ path = Raise ValueError).
Proof.
  intros Hopen line_findings.
  unfold analyze_file, scan_file, analyze_ast_issues. rewrite Hopen. simpl.
  repeat split.
  - intros ->. simpl. now rewrite app_nil_r.
  - intros tree ->. reflexivity.
  - intros ->. reflexivity.
Qed.

Lemma parse_failure_keeps_line_findings_witness :
  example_analyze_file "header.py"
  = Return (scan_lines example_tokenizer "header.py" (lines_of source_header) 1 0).
Proof.
  apply (proj1 (parse_failure_keeps_line_findings example_tokenizer
                  example_parse example_open "header.py" source_header
                  eq_refl)).
  reflexivity.
Defined.

(** ** The run *)

Lemma analyze_file_raises generate_tokens ast_parse open_ path e :
  read (open_ path) = Raise e ->
  analyze_file generate_tokens ast_parse open_ path = Raise e.
Proof.
  unfold analyze_file, scan_file.
  destruct (open_ path); simpl; intros [= <-]; reflexivity.
Qed.

Lemma analyze_files_all_return generate_tokens ast_parse open_ paths :
  (forall p, In p paths ->
     exists items, analyze_file generate_tokens ast_parse open_ p = Return items) ->
  exists items, analyze_files generate_tokens ast_parse open_ paths = Return items.
Proof.
  induction paths as [ | p paths IH]; intros H; simpl; [eauto | ].
  destruct (H p) as (items & ->); [left; reflexivity | ].
  destruct IH as (others & ->); [intros q Hq; apply H; right; exact Hq | ].
  simpl. eauto.
Qed.

(** X25: the run has no guard around the reading of a file: when the
    first file, in the order of the sorted paths, that cannot be opened or
    decoded is reached, the exception of the read leaves [main] and
    nothing is printed, whatever the files before and after it hold. *)
Theorem first_unreadable_file_ends_the_run
    (generate_tokens : string -> token_stream)
    (ast_parse : string -> result AST) (open_ : string -> file)
    (iter_python_files : string -> list string)
    (program input_path : string)
    (before : list string) (path : string) (after : list string)
    (e : exception) :
  sorted Str.leb (iter_python_files input_path) = before ++ path :: after ->
  (forall p, In p before ->
     exists items,
       analyze_file generate_tokens ast_parse open_ p = Return items) ->
  read (open_ path) = Raise e ->
  main generate_tokens ast_parse open_ iter_python_files [program; input_path]
  = Raise e.
Proof.
  intros Hsorted Hbefore Hread. unfold main. rewrite Hsorted.
  destruct (analyze_files_all_return _ _ _ _ Hbefore) as (items & Hitems).
  rewrite (analyze_files_raise _ _ _ _ _ _ _ _ Hitems
             (analyze_file_raises _ _ _ _ _ Hread)).
  reflexivity.
Qed.

Lemma first_unreadable_file_ends_the_run_witness :
  example_main ["analyzer"; "mixed"] = Raise UnicodeDecodeError.
Proof.
  apply (first_unreadable_file_ends_the_run example_tokenizer example_parse
           example_open example_iter_python_files "analyzer" "mixed"
           ["mixed/a.py"] "mixed/bad.py" [] UnicodeDecodeError).
  - reflexivity.
  - intros p [<- | []]. eexists. vm_compute. reflexivity.
  - reflexivity.
Defined.

(** X26: called with no path, or with more than one, the run prints
    nothing and raises nothing; it does not look at the file system. *)
Theorem main_without_one_argument
    (generate_tokens : string -> token_stream)
    (ast_parse : string -> result AST) (open_ : string -> file)
    (iter_python_files : string -> list string) (argv : list string) :
  length argv <> 2 ->
  main generate_tokens ast_parse open_ iter_python_files argv = Return [].
Proof.
  intros H. destruct argv as [ | a [ | b [ | c argv]]]; try reflexivity.
  simpl in H. contradiction.
Qed.

Lemma main_without_one_argument_witness :
  example_main ["analyzer"; "mixed"; "clean"] = Return [].
Proof.
  apply (main_without_one_argument example_tokenizer example_parse example_open
           example_iter_python_files ["analyzer"; "mixed"; "clean"]).
  simpl. lia.
Defined.

(** ** The comment splitter puts nothing aside *)

Lemma take_app_le n : forall s t,
  n <= String.length s -> Str.take n (s ++ t) = Str.take n s.
Proof.
  induction n as [ | n IH]; intros s t H.
  - destruct s, t; reflexivity.
  - destruct s as [ | c s]; simpl in H; [lia | ].
    simpl. rewrite IH by lia. reflexivity.
Qed.

Lemma drop_app_le n : forall s t,
  n <= String.length s -> Str.drop n (s ++ t) = (Str.drop n s ++ t)%string.
Proof.
  induction n as [ | n IH]; intros s t H.
  - destruct s, t; reflexivity.
  - destruct s as [ | c s]; simpl in H; [lia | ].
    simpl. apply IH. lia.
Qed.

Lemma no_newline_take_drop n s :
  no_newline s -> no_newline (Str.take n s) /\ no_newline (Str.drop n s).
Proof.
  unfold no_newline. intros H. rewrite <- (StrFacts.take_drop n s) in H.
  apply StrFacts.all_chars_app in H. exact H.
Qed.

(** X27: on a physical line, a body without newline and its terminator,
    the code part and the comment part of the splitter put together are
    the body: the split drops the terminator and nothing else, whether a
    comment is found (inside the body) or not. *)
Theorem split_keeps_the_whole_line
    (generate_tokens : string -> token_stream) (body terminator : string) :
  no_newline body -> all_chars Str.is_newline terminator ->
  (forall col,
     first_comment_col (generate_tokens (body ++ terminator)%string) = Some col ->
     col <= String.length body) ->
  (code_part_of generate_tokens (body ++ terminator)
   ++ comment_part_of generate_tokens (body ++ terminator))%string
  = body.
Proof.
  intros Hbody Hterm Hcol.
  rewrite code_part_of_spec, comment_part_of_spec. unfold code_before_comment.
  destruct (first_comment_col (generate_tokens (body ++ terminator)%string))
    as [col | ] eqn:E.
  - specialize (Hcol col eq_refl).
    rewrite (take_app_le _ _ _ Hcol), (drop_app_le _ _ _ Hcol).
    destruct (no_newline_take_drop col body Hbody) as [Htake Hdrop].
    rewrite (no_newline_rstrip _ Htake),
      (rstrip_newline_terminated _ _ Hdrop Hterm).
    apply StrFacts.take_drop.
  - rewrite (rstrip_newline_terminated _ _ Hbody Hterm).
    apply StrFacts.app_nil_r.
Qed.

Lemma split_keeps_the_whole_line_witness :
  (code_part_of more_tokenizer (line_todo ++ EmptyString)
   ++ comment_part_of more_tokenizer (line_todo ++ EmptyString))%string
  = line_todo.
Proof.
  apply (split_keeps_the_whole_line more_tokenizer line_todo EmptyString).
  - unfold no_newline, all_chars. vm_compute. repeat constructor.
  - constructor.
  - intros col H. vm_compute in H. injection H as <-. vm_compute. lia.
Defined.
